(** * valtrack: connection lifecycle, handshake flows and the event consumer

    A shallow embedding of [pkg/ethereum/node_notifiee.go] (the libp2p
    [network.Notifiee] of the sentry node) and of [consumer/main.go] (the
    JetStream consumer that persists events to Parquet), together with the
    properties of the design document that concern them.

    The handshake flows are Go methods that mutate the node, talk to a remote
    peer and write logs.  They are embedded as functions in a small
    state-and-outcome monad [Flow]: the state is the [World] (node fields,
    libp2p host view, log sinks, and a chronological trace of the effects
    that matter), the outcome says whether the goroutine returned, panicked
    or exited the process.  The remote peer is an explicit oracle [Remote]
    giving the answer of every RPC. *)

From Stdlib Require Import ZArith NArith String Ascii List Bool Lia.
From Stdlib.Strings Require Import Byte.
From stdpp Require Import gmap strings list fin_maps.

Open Scope string_scope.

(** ** Go values *)

(** [error]: a Go error is observed through its message only. *)
Definition error := string.

(** A Go [(value, error)] return pair. *)
Inductive result (A : Type) : Type :=
| Ok (a : A)
| Err (e : error).
Arguments Ok {A} a.
Arguments Err {A} e.

(** [errors.Wrap(err, msg)] of github.com/pkg/errors: the message of the
    wrapped error is [msg: cause]. *)
Definition errors_Wrap (err : error) (msg : string) : error :=
  msg ++ ": " ++ err.

(** [peer.ID] and [ma.Multiaddr], both observed through their text. *)
Definition PeerID := string.
Definition Multiaddr := string.
Definition Time := Z.

(** [peer.AddrInfo] *)
Record AddrInfo := { ID : PeerID; Addrs : list Multiaddr }.

(** [eth.Status] (prysm v1alpha1): slots and epochs are [uint64]; no
    arithmetic is done on them here, only the unsigned comparison. *)
Record Status := {
  ForkDigest : list byte;
  FinalizedRoot : list byte;
  FinalizedEpoch : N;
  HeadRoot : list byte;
  HeadSlot : N
}.

(** [eth.MetaDataV1] *)
Record MetaDataV1 := {
  SeqNumber : N;
  Attnets : list byte;
  Syncnets : list byte
}.

(** The [[4]byte] of [n.cfg.ForkDigest] and its slice [ForkDigest[:]]. *)
Record Bytes4 := { b0 : byte; b1 : byte; b2 : byte; b3 : byte }.

Definition slice_of (d : Bytes4) : list byte := [b0 d; b1 d; b2 d; b3 d].

(** [bytes.Equal]: same length and the same bytes. *)
Fixpoint bytes_Equal (a b : list byte) : bool :=
  match a, b with
  | [], [] => true
  | x :: a', y :: b' => Byte.eqb x y && bytes_Equal a' b'
  | _, _ => false
  end.

(** [int(x)] for a [uint64] [x]: the 64-bit two's complement reading. *)
Definition int_of_uint64 (x : N) : Z :=
  let z := Z.of_N x in
  if (z <? 2 ^ 63)%Z then z else (z - 2 ^ 64)%Z.

(** [hex.EncodeToString] *)
Definition hex_digit (n : N) : ascii :=
  match String.get (N.to_nat n) "0123456789abcdef" with
  | Some c => c
  | None => "0"%char
  end.

Fixpoint hex_EncodeToString (bs : list byte) : string :=
  match bs with
  | [] => ""
  | b :: rest =>
      String (hex_digit (Byte.to_N b / 16))
        (String (hex_digit (Byte.to_N b mod 16)) (hex_EncodeToString rest))
  end.

(** ** zerolog

    A zerolog event is built by [log.Level()], extended by [Str], [Int],
    [Err], and written only by [Msg]; for the fatal level it is [Msg] that
    calls [os.Exit(1)] after writing.  An event that is built and dropped
    writes nothing and exits nothing. *)
Inductive Level := DebugLevel | InfoLevel | WarnLevel | ErrorLevel | FatalLevel.

Inductive Field :=
| FStr (key val : string)
| FInt (key : string) (val : Z)
| FErr (err : error).

Record Event := { ev_level : Level; ev_fields : list Field }.

Record LogLine := { ll_level : Level; ll_fields : list Field; ll_msg : string }.

Definition log_Debug : Event := {| ev_level := DebugLevel; ev_fields := [] |}.
Definition log_Info : Event := {| ev_level := InfoLevel; ev_fields := [] |}.
Definition log_Warn : Event := {| ev_level := WarnLevel; ev_fields := [] |}.
Definition log_Error : Event := {| ev_level := ErrorLevel; ev_fields := [] |}.
Definition log_Fatal : Event := {| ev_level := FatalLevel; ev_fields := [] |}.

Definition with_field (f : Field) (e : Event) : Event :=
  {| ev_level := ev_level e; ev_fields := ev_fields e ++ [f] |}.

Definition Str (key val : string) : Event -> Event := with_field (FStr key val).
Definition Int (key : string) (val : Z) : Event -> Event := with_field (FInt key val).
Definition Err_ (err : error) : Event -> Event := with_field (FErr err).

Definition level_rank (l : Level) : nat :=
  match l with
  | DebugLevel => 0 | InfoLevel => 1 | WarnLevel => 2
  | ErrorLevel => 3 | FatalLevel => 4
  end.

(** ** Effects recorded in the trace *)

Inductive Rpc :=
| RpcStatus
| RpcPing
| RpcMetaData
| RpcGoodbye (reason : Z).

Inductive Action :=
| ARpc (rpc : Rpc) (pid : PeerID)
| ASetStatus (st : Status)
| AEmitMetadata (pid : PeerID) (addrInfo : AddrInfo) (md : MetaDataV1)
| AMetadataCachePut (pid : PeerID) (md : MetaDataV1)
| ABackoffCachePut (pid : PeerID) (addrInfo : AddrInfo)
| AClosePeer (pid : PeerID).

(** One line of [n.fileLogger]. *)
Record FileLine := {
  fl_time : Time; fl_id : string; fl_seq : N; fl_attnets : string
}.

(** ** The world a flow runs in

    [cfg_ForkDigest], [reqResp_status], [metadataCache], [backoffCache],
    [log] and [fileLogger] are fields of the [Node]; [peerstore] and [conns]
    are what [n.host] answers for [Peerstore().Addrs] and
    [Network().Connectedness]; [clock] is [time.Now()]. *)
Record World := {
  cfg_ForkDigest : Bytes4;
  reqResp_status : Status;
  metadataCache : gmap PeerID (MetaDataV1 * Time);
  backoffCache : gmap PeerID (AddrInfo * Time);
  peerstore : gmap PeerID (list Multiaddr);
  conns : gset PeerID;
  clock : Time;
  trace : list Action;
  log : list LogLine;
  fileLogger : list FileLine
}.

Definition set_status (st : Status) (w : World) : World :=
  {| cfg_ForkDigest := cfg_ForkDigest w; reqResp_status := st;
     metadataCache := metadataCache w; backoffCache := backoffCache w;
     peerstore := peerstore w; conns := conns w; clock := clock w;
     trace := trace w; log := log w; fileLogger := fileLogger w |}.

Definition set_metadataCache (m : gmap PeerID (MetaDataV1 * Time)) (w : World) : World :=
  {| cfg_ForkDigest := cfg_ForkDigest w; reqResp_status := reqResp_status w;
     metadataCache := m; backoffCache := backoffCache w;
     peerstore := peerstore w; conns := conns w; clock := clock w;
     trace := trace w; log := log w; fileLogger := fileLogger w |}.

Definition set_backoffCache (m : gmap PeerID (AddrInfo * Time)) (w : World) : World :=
  {| cfg_ForkDigest := cfg_ForkDigest w; reqResp_status := reqResp_status w;
     metadataCache := metadataCache w; backoffCache := m;
     peerstore := peerstore w; conns := conns w; clock := clock w;
     trace := trace w; log := log w; fileLogger := fileLogger w |}.

Definition set_conns (c : gset PeerID) (w : World) : World :=
  {| cfg_ForkDigest := cfg_ForkDigest w; reqResp_status := reqResp_status w;
     metadataCache := metadataCache w; backoffCache := backoffCache w;
     peerstore := peerstore w; conns := c; clock := clock w;
     trace := trace w; log := log w; fileLogger := fileLogger w |}.

Definition set_trace (t : list Action) (w : World) : World :=
  {| cfg_ForkDigest := cfg_ForkDigest w; reqResp_status := reqResp_status w;
     metadataCache := metadataCache w; backoffCache := backoffCache w;
     peerstore := peerstore w; conns := conns w; clock := clock w;
     trace := t; log := log w; fileLogger := fileLogger w |}.

Definition set_log (l : list LogLine) (w : World) : World :=
  {| cfg_ForkDigest := cfg_ForkDigest w; reqResp_status := reqResp_status w;
     metadataCache := metadataCache w; backoffCache := backoffCache w;
     peerstore := peerstore w; conns := conns w; clock := clock w;
     trace := trace w; log := l; fileLogger := fileLogger w |}.

Definition set_fileLogger (l : list FileLine) (w : World) : World :=
  {| cfg_ForkDigest := cfg_ForkDigest w; reqResp_status := reqResp_status w;
     metadataCache := metadataCache w; backoffCache := backoffCache w;
     peerstore := peerstore w; conns := conns w; clock := clock w;
     trace := trace w; log := log w; fileLogger := l |}.

(** ** The flow monad *)

(** How a goroutine's call ends.  A panic unwinds through the deferred
    calls; [os.Exit] does not run them. *)
Inductive Outcome (A : Type) : Type :=
| Returned (a : A)
| Panicked (msg : string)
| Exited (code : Z).
Arguments Returned {A} a.
Arguments Panicked {A} msg.
Arguments Exited {A} code.

Definition Flow (A : Type) : Type := World -> Outcome A * World.

Definition ret {A} (a : A) : Flow A := fun w => (Returned a, w).

Definition bind {A B} (m : Flow A) (k : A -> Flow B) : Flow B :=
  fun w =>
    match m w with
    | (Returned a, w') => k a w'
    | (Panicked msg, w') => (Panicked msg, w')
    | (Exited code, w') => (Exited code, w')
    end.

Notation "x <- m ;; k" := (bind m (fun x => k))
  (at level 100, m at next level, right associativity).
Notation "m ;; k" := (bind m (fun _ => k))
  (at level 100, right associativity).
Notation "e |> f" := (f e) (at level 40, left associativity, only parsing).

Definition gets {A} (f : World -> A) : Flow A := fun w => (Returned (f w), w).
Definition modify (f : World -> World) : Flow unit := fun w => (Returned tt, f w).
Definition panic {A} (msg : string) : Flow A := fun w => (Panicked msg, w).
Definition os_Exit {A} (code : Z) : Flow A := fun w => (Exited code, w).

(** [defer cleanup(); body]: the deferred call runs when the body returns
    and when it panics (the panic goes on afterwards, unless the deferred
    call itself ends the goroutine); it does not run after [os.Exit]. *)
Definition defer {A} (deferred : Flow unit) (body : Flow A) : Flow A :=
  fun w =>
    match body w with
    | (Exited code, w') => (Exited code, w')
    | (Returned a, w') =>
        match deferred w' with
        | (Returned _, w'') => (Returned a, w'')
        | (Panicked msg, w'') => (Panicked msg, w'')
        | (Exited code, w'') => (Exited code, w'')
        end
    | (Panicked msg, w') =>
        match deferred w' with
        | (Returned _, w'') => (Panicked msg, w'')
        | (Panicked msg', w'') => (Panicked msg', w'')
        | (Exited code, w'') => (Exited code, w'')
        end
    end.

Definition emit (a : Action) : Flow unit :=
  modify (fun w => set_trace (trace w ++ [a]) w).

(** [event.Msg(msg)]: writes the line; a fatal event then exits. *)
Definition Msg (msg : string) (e : Event) : Flow unit :=
  modify (fun w =>
    set_log (log w ++ [{| ll_level := ev_level e; ll_fields := ev_fields e;
                          ll_msg := msg |}]) w) ;;
  match ev_level e with
  | FatalLevel => os_Exit 1
  | _ => ret tt
  end.

(** An event that is built and never sent. *)
Definition unsent (e : Event) : Flow unit := ret tt.

(** [s[:k]] on a slice whose capacity is its length. *)
Definition slice_to {A} (k : nat) (s : list A) : Flow (list A) :=
  if (k <=? length s)%nat then ret (take k s)
  else panic "slice bounds out of range".

(** ** The remote peer

    Every call that blocks on the network gets its answer from the remote
    peer, and the connection may be gone by the time the call is back. *)
Record Reply (A : Type) := { answer : A; hangs_up : bool }.
Arguments answer {A} _.
Arguments hangs_up {A} _.

Record Remote := {
  on_Status : Reply (result Status);
  on_Ping : Reply (option error);
  on_MetaData : Reply (result MetaDataV1);
  on_Goodbye : Reply (option error);
  (** the connection closes during the inbound grace period *)
  on_Sleep : bool
}.

Definition await (hangs : bool) (pid : PeerID) : Flow unit :=
  modify (fun w => if hangs then set_conns (conns w ∖ {[pid]}) w else w).

(** ** libp2p host *)

(** [n.host.Network().Connectedness(pid) == network.Connected] *)
Definition Connectedness (pid : PeerID) : Flow bool :=
  gets (fun w => bool_decide (pid ∈ conns w)).

(** [n.host.Network().ClosePeer(pid)]; its error is dropped by the callers. *)
Definition ClosePeer (pid : PeerID) : Flow unit :=
  modify (fun w => set_conns (conns w ∖ {[pid]}) w) ;;
  emit (AClosePeer pid).

(** [n.host.Peerstore().Addrs(pid)] *)
Definition Peerstore_Addrs (pid : PeerID) : Flow (list Multiaddr) :=
  gets (fun w => default [] (peerstore w !! pid)).

(** [time.Sleep(5 * time.Second)] in the inbound flow. *)
Definition time_Sleep (r : Remote) (pid : PeerID) : Flow unit :=
  await (on_Sleep r) pid.

(** ** Protocol client and caches *)

(** Modelled from the spec: the [ReqResp] client ([n.reqResp]) is not among
    the sources.  "Exposes four RPC operations, each taking a peer identity
    and a bounded context deadline": Status answers the peer's StatusRecord,
    Ping answers for liveness only, MetaData answers the peer's
    MetadataRecord, Goodbye carries a reason code; each fails with a
    network, timeout or decode error.  A deadline that expires is one of
    the errors the remote oracle can answer. *)
Definition rpc {A} (kind : Rpc) (reply : Reply A) (pid : PeerID) : Flow A :=
  emit (ARpc kind pid) ;;
  await (hangs_up reply) pid ;;
  ret (answer reply).

Definition reqResp_Status (r : Remote) (pid : PeerID) : Flow (result Status) :=
  rpc RpcStatus (on_Status r) pid.

Definition reqResp_Ping (r : Remote) (pid : PeerID) : Flow (option error) :=
  rpc RpcPing (on_Ping r) pid.

Definition reqResp_MetaData (r : Remote) (pid : PeerID) : Flow (result MetaDataV1) :=
  rpc RpcMetaData (on_MetaData r) pid.

Definition reqResp_Goodbye (r : Remote) (pid : PeerID) (reason : Z) : Flow (option error) :=
  rpc (RpcGoodbye reason) (on_Goodbye r) pid.

(** Modelled from the spec: [ReqResp.SetStatus] is not among the sources.
    The local StatusRecord is one record, written as a whole ("readers and
    writers must not observe a torn record", "never raw field mutation"):
    the update stores the record it is given. *)
Definition reqResp_SetStatus (st : Status) : Flow unit :=
  modify (set_status st) ;;
  emit (ASetStatus st).

(** Modelled from the spec: [addToMetadataCache] is not among the sources.
    "put(peer, metadata) (always overwrites)", the entry being the
    MetadataRecord with its fetched-at timestamp. *)
Definition addToMetadataCache (pid : PeerID) (md : MetaDataV1) : Flow unit :=
  modify (fun w => set_metadataCache (<[pid := (md, clock w)]> (metadataCache w)) w) ;;
  emit (AMetadataCachePut pid md).

(** Modelled from the spec: [getMetadataFromCache] is not among the sources.
    "get(peer) -> metadata-or-absent". *)
Definition getMetadataFromCache (pid : PeerID) : Flow (option MetaDataV1) :=
  gets (fun w => fst <$> metadataCache w !! pid).

(** Modelled from the spec: [addToBackoffCache] is not among the sources.
    "put(peer, address-info) (overwrites, refreshing the failure
    timestamp)". *)
Definition addToBackoffCache (pid : PeerID) (addrInfo : AddrInfo) : Flow unit :=
  modify (fun w => set_backoffCache (<[pid := (addrInfo, clock w)]> (backoffCache w)) w) ;;
  emit (ABackoffCachePut pid addrInfo).

(** Modelled from the spec: [sendMetadataEvent] is not among the sources.
    The Event Emitter hands the fact to the publish capability; a failed
    publish is logged and does not abort the handshake, so the flow goes on
    either way. *)
Definition sendMetadataEvent (pid : PeerID) (addrInfo : AddrInfo) (md : MetaDataV1) : Flow unit :=
  emit (AEmitMetadata pid addrInfo md).

(** [fmt.Fprintf(n.fileLogger, "%s ID: %v, SeqNum: %v, Attnets: %s\n", ...)] *)
Definition Fprintf_fileLogger (pid : PeerID) (md : MetaDataV1) : Flow unit :=
  modify (fun w =>
    set_fileLogger (fileLogger w ++
      [{| fl_time := clock w; fl_id := pid; fl_seq := SeqNumber md;
          fl_attnets := hex_EncodeToString (Attnets md) |}]) w).

(** ** node_notifiee.go *)

(** [validatePeer], lines 144-179.  [nil] is [None]. *)
Definition validatePeer (r : Remote) (pid : PeerID) (addrInfo : AddrInfo) : Flow (option error) :=
  res <- reqResp_Status r pid ;;
  match res with
  | Err err => ret (Some (errors_Wrap err "Failed to get status from peer"))
  | Ok st =>
      (* If the status head slot is higher than the current, update it *)
      digest <- gets cfg_ForkDigest ;;
      cur <- gets reqResp_status ;;
      (if bytes_Equal (ForkDigest st) (slice_of digest) then
         if (HeadSlot cur <? HeadSlot st)%N then reqResp_SetStatus st else ret tt
       else ret tt) ;;
      perr <- reqResp_Ping r pid ;;
      match perr with
      | Some err => ret (Some (errors_Wrap err "Failed to ping peer"))
      | None =>
          mres <- reqResp_MetaData r pid ;;
          match mres with
          | Err err => ret (Some (errors_Wrap err "Failed to get metadata from peer"))
          | Ok md =>
              sendMetadataEvent pid addrInfo md ;;
              addToMetadataCache pid md ;;
              (log_Info |> Str "peer" pid
                        |> Int "Seq" (int_of_uint64 (SeqNumber md))
                        |> Str "Attnets" (hex_EncodeToString (Attnets md))
                        |> Msg "Performed successful handshake") ;;
              Fprintf_fileLogger pid md ;;
              ret None
          end
      end
  end.

(** The deferred cleanup function, lines 51-66 and 94-108 (the same text
    in both flows). *)
Definition cleanup (r : Remote) (pid : PeerID) : Flow unit :=
  connected <- Connectedness pid ;;
  (* Don't do anything if we're already disconnected *)
  if negb connected then ret tt
  else
    err <- reqResp_Goodbye r pid 3 ;;
    match err with
    | Some e =>
        log_Debug |> Str "peer" pid |> Err_ e |> Msg "Failed to send goodbye message"
    | None => ret tt
    end ;;
    ClosePeer pid.

(** The body of [handleOutboundConnection] after its [defer]s, lines 68-82. *)
Definition outbound_body (r : Remote) (pid : PeerID) : Flow unit :=
  addrs <- Peerstore_Addrs pid ;;
  if (length addrs =? 0)%nat then
    log_Error |> Str "peer" pid |> Msg "No addresses found for peer"
  else
    first <- slice_to 1 addrs ;;
    let addrInfo := {| ID := pid; Addrs := first |} in
    verr <- validatePeer r pid addrInfo ;;
    match verr with
    | Some err =>
        (log_Warn |> Str "peer" pid |> Err_ err |> Msg "Handshake failed") ;;
        addToBackoffCache pid addrInfo
    | None => ret tt
    end.

(** [handleOutboundConnection], lines 46-84. *)
Definition handleOutboundConnection (r : Remote) (pid : PeerID) : Flow unit :=
  defer (cleanup r pid) (outbound_body r pid).

(** The body of [handleInboundConnection] after its [defer]s, lines 110-141.
    Line 126 builds a fatal event and adds a field to it, and never sends
    it; line 129 then slices [addrs[:1]]. *)
Definition inbound_body (r : Remote) (pid : PeerID) : Flow unit :=
  time_Sleep r pid ;;
  connected <- Connectedness pid ;;
  if negb connected then
    log_Warn |> Str "peer" pid |> Msg "Connection was closed before handshake completed"
  else
    mres <- reqResp_MetaData r pid ;;
    match mres with
    | Err err =>
        log_Warn |> Str "peer" pid |> Err_ err |> Msg "Failed requesting metadata"
    | Ok md =>
        addrs <- Peerstore_Addrs pid ;;
        (if (length addrs =? 0)%nat then
           unsent (log_Fatal |> Str "No addresses found for peer" pid)
         else ret tt) ;;
        first <- slice_to 1 addrs ;;
        let addrInfo := {| ID := pid; Addrs := first |} in
        sendMetadataEvent pid addrInfo md ;;
        addToMetadataCache pid md ;;
        (log_Info |> Str "peer" pid
                  |> Int "Seq" (int_of_uint64 (SeqNumber md))
                  |> Str "Attnets" (hex_EncodeToString (Attnets md))
                  |> Msg "Performed successful handshake") ;;
        Fprintf_fileLogger pid md
    end.

(** [handleInboundConnection], lines 86-142. *)
Definition handleInboundConnection (r : Remote) (pid : PeerID) : Flow unit :=
  (log_Info |> Str "peer" pid |> Msg "Handling new inbound connection") ;;
  defer (cleanup r pid) (inbound_body r pid).

(** [network.Direction] *)
Inductive Direction := DirUnknown | DirInbound | DirOutbound.

Definition Direction_String (d : Direction) : string :=
  match d with
  | DirUnknown => "Unknown"
  | DirInbound => "Inbound"
  | DirOutbound => "Outbound"
  end.

(** [Connected], lines 18-32.  The flow is started with [go]; here it runs
    to its end before the next notification.  Nothing recovers a panic in
    the goroutine, so the way the flow ends is the way the process goes
    on: [Returned], or down. *)
Definition Connected (r : Remote) (dir : Direction) (pid : PeerID) : Flow unit :=
  total <- gets (fun w => size (conns w)) ;;
  (log_Info |> Str "peer" pid
            |> Str "dir" (Direction_String dir)
            |> Int "total" (Z.of_nat total)
            |> Msg "Connected Peer") ;;
  match dir with
  | DirOutbound => handleOutboundConnection r pid
  | DirInbound => handleInboundConnection r pid
  | DirUnknown => ret tt
  end.

(** [Disconnected], lines 34-40. *)
Definition Disconnected (pid : PeerID) : Flow unit :=
  md <- getMetadataFromCache pid ;;
  match md with
  | Some _ => log_Info |> Str "peer" pid |> Msg "Disconnected from handshaked peer"
  | None => ret tt
  end.

(** A run of the node: the notifications it gets, one after the other,
    until the process is down. *)
Inductive Notification :=
| NConnected (r : Remote) (dir : Direction) (pid : PeerID)
| NDisconnected (pid : PeerID).

Definition notify (n : Notification) : Flow unit :=
  match n with
  | NConnected r dir pid => Connected r dir pid
  | NDisconnected pid => Disconnected pid
  end.

Fixpoint run (ns : list Notification) : Flow unit :=
  match ns with
  | [] => ret tt
  | n :: rest => notify n ;; run rest
  end.

(** ** consumer/main.go *)

Module Consumer.

(** Modelled from the spec: the event types [ethereum.PeerDiscoveredEvent]
    and [ethereum.MetadataReceivedEvent] are declared outside the sources.
    They have the fields the consumer reads, and, as the event shapes of
    the spec, "a crawler identity string, a crawler location string, and a
    capture timestamp", the metadata event carrying the metadata payload. *)
Record PeerDiscoveredEvent := {
  pd_ENR : string;
  pd_ID : string;
  pd_IP : string;
  pd_Port : Z;
  pd_CrawlerID : string;
  pd_CrawlerLoc : string;
  pd_Timestamp : Z
}.

Record MetadataReceivedEvent := {
  mr_ID : string;
  mr_Multiaddr : string;
  mr_Epoch : N;
  mr_MetaData : option MetaDataV1;
  mr_ClientVersion : string;
  mr_CrawlerID : string;
  mr_CrawlerLoc : string;
  mr_Timestamp : Z
}.

(** [ParquetPeerDiscoveredEvent], lines 30-38: the schema tags give the
    column name and primitive type of each field. *)
Record ParquetPeerDiscoveredEvent := {
  ppd_ENR : string;        (* name=enr, BYTE_ARRAY UTF8 *)
  ppd_ID : string;         (* name=id, BYTE_ARRAY UTF8 *)
  ppd_IP : string;         (* name=ip, BYTE_ARRAY UTF8 *)
  ppd_Port : Z;            (* name=port, INT32 *)
  ppd_CrawlerID : string;  (* name=crawler_id, BYTE_ARRAY UTF8 *)
  ppd_CrawlerLoc : string; (* name=crawler_location, BYTE_ARRAY UTF8 *)
  ppd_Timestamp : Z        (* name=timestamp, INT64 *)
}.

(** [ParquetMetadataReceivedEvent], lines 40-49.  [MetaData] is a pointer:
    [None] is [nil]. *)
Record ParquetMetadataReceivedEvent := {
  pmr_ID : string;                    (* name=id, BYTE_ARRAY UTF8 *)
  pmr_Multiaddr : string;             (* name=multiaddr, BYTE_ARRAY UTF8 *)
  pmr_Epoch : N;                      (* name=epoch, INT32 *)
  pmr_MetaData : option MetaDataV1;   (* name=metadata, BYTE_ARRAY UTF8 *)
  pmr_ClientVersion : string;         (* name=client_version, BYTE_ARRAY UTF8 *)
  pmr_CrawlerID : string;             (* name=crawler_id, BYTE_ARRAY UTF8 *)
  pmr_CrawlerLoc : string;            (* name=crawler_location, BYTE_ARRAY UTF8 *)
  pmr_Timestamp : Z                   (* name=timestamp, INT64 *)
}.

(** [jetstream.MsgMetadata], of which the stream sequence is logged. *)
Record MsgMetadata := { Sequence : N }.

(** [jetstream.Msg]: [Metadata] is what [msg.Metadata()] answers, [None]
    for the [nil] it gives with an error. *)
Record Msg := {
  Subject : string;
  Data : list byte;
  Metadata : option MsgMetadata
}.

(** What the consumer does to the outside, in order. *)
Inductive Effect :=
| Printf (line : string)
| LogInfo (seq : N) (msg : string)
| WritePeerDiscovered (rec : ParquetPeerDiscoveredEvent)
| WriteMetadataReceived (rec : ParquetMetadataReceivedEvent)
| Term
| Ack.

(** What the consumer depends on: [json.Unmarshal] at the two event
    types, and the errors of [pw.Write] and [msg.Ack]. *)
Record Env := {
  Unmarshal_PeerDiscovered : list byte -> result PeerDiscoveredEvent;
  Unmarshal_MetadataReceived : list byte -> result MetadataReceivedEvent;
  Write_err : option error;
  Ack_err : option error
}.

(** [storePeerDiscoveredEvent], lines 170-183.  A field the composite
    literal does not name has its zero value.  [int(event.Port)] and, below,
    [uint(event.Epoch)] convert a value to the type it has in the event. *)
Definition parquetPeerDiscoveredEvent (event : PeerDiscoveredEvent)
  : ParquetPeerDiscoveredEvent :=
  {| ppd_ENR := pd_ENR event;
     ppd_ID := pd_ID event;
     ppd_IP := pd_IP event;
     ppd_Port := pd_Port event;
     ppd_CrawlerID := pd_CrawlerID event;
     ppd_CrawlerLoc := pd_CrawlerLoc event;
     ppd_Timestamp := 0 |}.

Definition storePeerDiscoveredEvent (env : Env) (event : PeerDiscoveredEvent)
  : list Effect :=
  WritePeerDiscovered (parquetPeerDiscoveredEvent event) ::
  match Write_err env with
  | Some err => [Printf ("Error writing to Parquet file: " ++ err)]
  | None => []
  end.

(** [storeMetadataReceivedEvent], lines 185-198. *)
Definition parquetMetadataReceivedEvent (event : MetadataReceivedEvent)
  : ParquetMetadataReceivedEvent :=
  {| pmr_ID := mr_ID event;
     pmr_Multiaddr := mr_Multiaddr event;
     pmr_Epoch := mr_Epoch event;
     pmr_MetaData := None;
     pmr_ClientVersion := mr_ClientVersion event;
     pmr_CrawlerID := mr_CrawlerID event;
     pmr_CrawlerLoc := mr_CrawlerLoc event;
     pmr_Timestamp := 0 |}.

Definition storeMetadataReceivedEvent (env : Env) (event : MetadataReceivedEvent)
  : list Effect :=
  WriteMetadataReceived (parquetMetadataReceivedEvent event) ::
  match Write_err env with
  | Some err => [Printf ("Error writing to Parquet file: " ++ err)]
  | None => []
  end.

(** Lines 165-167. *)
Definition ack (env : Env) : list Effect :=
  Ack ::
  match Ack_err env with
  | Some err => [Printf ("Error acknowledging message: " ++ err)]
  | None => []
  end.

(** [handleMessage], lines 138-168: the effects, and how the goroutine
    ends.  [MsgMetadata.Sequence] on line 148 and 158 reads through the
    pointer that [msg.Metadata()] gave. *)
Definition handleMessage (env : Env) (msg : Msg) : list Effect * Outcome unit :=
  if String.eqb (Subject msg) "events.peer_discovered" then
    match Unmarshal_PeerDiscovered env (Data msg) with
    | Err err =>
        ([Printf ("Error unmarshaling PeerDiscoveredEvent: " ++ err); Term],
         Returned tt)
    | Ok event =>
        match Metadata msg with
        | None => ([], Panicked "nil pointer dereference")
        | Some meta =>
            (LogInfo (Sequence meta) "peer_discovered"
               :: storePeerDiscoveredEvent env event ++ ack env,
             Returned tt)
        end
    end
  else if String.eqb (Subject msg) "events.metadata_received" then
    match Unmarshal_MetadataReceived env (Data msg) with
    | Err err =>
        ([Printf ("Error unmarshaling MetadataReceivedEvent: " ++ err); Term],
         Returned tt)
    | Ok event =>
        match Metadata msg with
        | None => ([], Panicked "nil pointer dereference")
        | Some meta =>
            (LogInfo (Sequence meta) "metadata_received"
               :: storeMetadataReceivedEvent env event ++ ack env,
             Returned tt)
        end
    end
  else
    (Printf ("Unknown event type: " ++ Subject msg) :: ack env, Returned tt).

End Consumer.

(** ** Vocabulary of the properties *)

Open Scope list_scope.

(** The compare-and-update rule of [validatePeer], lines 150-155, as the
    effect it leaves in the trace. *)
Definition rule_fires (w : World) (st : Status) : bool :=
  bytes_Equal (ForkDigest st) (slice_of (cfg_ForkDigest w))
  && (HeadSlot (reqResp_status w) <? HeadSlot st)%N.

Definition compare_and_update (w : World) (st : Status) : list Action :=
  if rule_fires w st then [ASetStatus st] else [].

(** Whether one of the three RPCs of the Validate procedure answers an
    error. *)
Definition Validate_fails (r : Remote) : bool :=
  match answer (on_Status r), answer (on_Ping r), answer (on_MetaData r) with
  | Ok _, None, Ok _ => false
  | _, _, _ => true
  end.

(** The error the Validate procedure hands back: that of the first RPC
    that fails, wrapped with the name of its step. *)
Definition Validate_error (r : Remote) : option error :=
  match answer (on_Status r), answer (on_Ping r), answer (on_MetaData r) with
  | Err e, _, _ => Some (errors_Wrap e "Failed to get status from peer")
  | Ok _, Some e, _ => Some (errors_Wrap e "Failed to ping peer")
  | Ok _, None, Err e => Some (errors_Wrap e "Failed to get metadata from peer")
  | Ok _, None, Ok _ => None
  end.

Definition is_rpc (a : Action) : bool :=
  match a with ARpc _ _ => true | _ => false end.

Definition is_handshake_rpc (a : Action) : bool :=
  match a with
  | ARpc RpcStatus _ | ARpc RpcPing _ | ARpc RpcMetaData _ => true
  | _ => false
  end.

Definition is_emission (a : Action) : bool :=
  match a with AEmitMetadata _ _ _ => true | _ => false end.

Definition is_metadata_insertion (a : Action) : bool :=
  match a with AMetadataCachePut _ _ => true | _ => false end.

Definition is_backoff_insertion (a : Action) : bool :=
  match a with ABackoffCachePut _ _ => true | _ => false end.

Fixpoint count (p : Action -> bool) (t : list Action) : nat :=
  match t with
  | [] => 0
  | a :: t' => (if p a then 1 else 0) + count p t'
  end.

(** Index of the first action of a kind. *)
Fixpoint position (p : Action -> bool) (t : list Action) : option nat :=
  match t with
  | [] => None
  | a :: t' => if p a then Some 0 else S <$> position p t'
  end.

(** "The cache insertion happens before or together with the emission". *)
Definition insertion_not_after_emission (t : list Action) : bool :=
  match position is_metadata_insertion t, position is_emission t with
  | Some i, Some j => (i <=? j)%nat
  | _, _ => false
  end.

(** What a flow added to the trace and to the log. *)
Definition new_actions (w w' : World) : list Action :=
  drop (length (trace w)) (trace w').

Definition new_log (w w' : World) : list LogLine :=
  drop (length (log w)) (log w').

(** What the deferred cleanup adds to the trace when it starts in [w]. *)
Definition cleanup_actions (pid : PeerID) (w : World) : list Action :=
  if bool_decide (pid ∈ conns w)
  then [ARpc (RpcGoodbye 3) pid; AClosePeer pid]
  else [].

(** The inbound flow gets as far as line 124 with no address to find:
    the peer is still connected after the grace period and answers the
    MetaData request. *)
Definition inbound_without_address (r : Remote) (pid : PeerID) (w : World) : bool :=
  bool_decide (pid ∈ conns w)
  && negb (on_Sleep r)
  && match answer (on_MetaData r) with Ok _ => true | Err _ => false end
  && (length (default [] (peerstore w !! pid)) =? 0)%nat.

(** The head slot of the local status record does not go down. *)
Definition head_le (w w' : World) : Prop :=
  (HeadSlot (reqResp_status w) <= HeadSlot (reqResp_status w'))%N.

(** The log grew, by lines below the fatal level. *)
Definition log_calm (w w' : World) : Prop :=
  exists d, log w' = log w ++ d
            /\ Forall (fun l => level_rank (ll_level l) <= 3) d.

(** What the consumer does to a message and to the store, the console
    and log lines left out. *)
Definition is_protocol (e : Consumer.Effect) : bool :=
  match e with
  | Consumer.Printf _ | Consumer.LogInfo _ _ => false
  | _ => true
  end.

Definition protocol (t : list Consumer.Effect) : list Consumer.Effect :=
  List.filter is_protocol t.

(** The state after the first log line of [handleInboundConnection], where
    its deferred cleanup and body start. *)
Definition inbound_entry (pid : PeerID) (w : World) : World :=
  set_log (log w ++ [{| ll_level := InfoLevel; ll_fields := [FStr "peer" pid];
                        ll_msg := "Handling new inbound connection" |}]) w.

(** The state after the log line of [Connected], where the flow starts. *)
Definition connected_entry (dir : Direction) (pid : PeerID) (w : World) : World :=
  set_log (log w ++ [{| ll_level := InfoLevel;
                        ll_fields := [FStr "peer" pid;
                                      FStr "dir" (Direction_String dir);
                                      FInt "total" (Z.of_nat (size (conns w)))];
                        ll_msg := "Connected Peer" |}]) w.

(** A flow keeps [R] when the state it ends in is [R]-related to the state
    it starts in, however it ends. *)
Definition keeps (R : World -> World -> Prop) {A} (m : Flow A) : Prop :=
  forall w, R w (snd (m w)).

(** What [validatePeer] leaves alone. *)
Definition same_backoff_and_clock (w w' : World) : Prop :=
  backoffCache w' = backoffCache w /\ clock w' = clock w
  /\ peerstore w' = peerstore w.

(** ** Sample data *)

Module Sample.
Definition digest : Bytes4 := {| b0 := x6a; b1 := x95; b2 := xa1; b3 := xa9 |}.

Definition local : Status :=
  {| ForkDigest := slice_of digest; FinalizedRoot := [x01];
     FinalizedEpoch := 1; HeadRoot := [x02]; HeadSlot := 50 |}.

Definition ahead : Status :=
  {| ForkDigest := slice_of digest; FinalizedRoot := [x11];
     FinalizedEpoch := 3; HeadRoot := [x12]; HeadSlot := 100 |}.

Definition foreign : Status :=
  {| ForkDigest := [x00; x00; x00; x00]; FinalizedRoot := [x21];
     FinalizedEpoch := 900; HeadRoot := [x22]; HeadSlot := 1000000 |}.

Definition md7 : MetaDataV1 :=
  {| SeqNumber := 7; Attnets := [xff]; Syncnets := [] |}.

(** [P] has two known addresses and is connected; [Q] is connected and
    has none. *)
Definition node : World :=
  {| cfg_ForkDigest := digest; reqResp_status := local;
     metadataCache := ∅; backoffCache := ∅;
     peerstore := {[ "P" := ["/ip4/10.0.0.1/tcp/9000"; "/ip4/10.0.0.2/tcp/9000"] ]};
     conns := {[ "P"; "Q" ]};
     clock := 1700000000%Z;
     trace := []; log := []; fileLogger := [] |}.

Definition reply {A} (a : A) : Reply A := {| answer := a; hangs_up := false |}.

Definition healthy (st : Status) : Remote :=
  {| on_Status := reply (Ok st); on_Ping := reply None;
     on_MetaData := reply (Ok md7); on_Goodbye := reply None;
     on_Sleep := false |}.

Definition ping_times_out : Remote :=
  {| on_Status := reply (Ok ahead);
     on_Ping := reply (Some "context deadline exceeded");
     on_MetaData := reply (Ok md7);
     on_Goodbye := reply (Some "stream reset");
     on_Sleep := false |}.

Definition addrP : AddrInfo := {| ID := "P"; Addrs := ["/ip4/10.0.0.1/tcp/9000"] |}.

Definition metadata_event : Consumer.MetadataReceivedEvent :=
  {| Consumer.mr_ID := "P";
     Consumer.mr_Multiaddr := "/ip4/10.0.0.1/tcp/9000";
     Consumer.mr_Epoch := 3;
     Consumer.mr_MetaData := Some md7;
     Consumer.mr_ClientVersion := "client/v1";
     Consumer.mr_CrawlerID := "crawler-1";
     Consumer.mr_CrawlerLoc := "eu";
     Consumer.mr_Timestamp := 1700000000 |}.

Definition peer_event : Consumer.PeerDiscoveredEvent :=
  {| Consumer.pd_ENR := "enr:-abc";
     Consumer.pd_ID := "P";
     Consumer.pd_IP := "10.0.0.1";
     Consumer.pd_Port := 9000;
     Consumer.pd_CrawlerID := "crawler-1";
     Consumer.pd_CrawlerLoc := "eu";
     Consumer.pd_Timestamp := 1700000000 |}.

(** A decoder that rejects the empty payload. *)
Definition env (write_err : option error) : Consumer.Env :=
  {| Consumer.Unmarshal_PeerDiscovered := fun data =>
       match data with
       | [] => Err "unexpected end of JSON input"
       | _ => Ok peer_event
       end;
     Consumer.Unmarshal_MetadataReceived := fun data =>
       match data with
       | [] => Err "unexpected end of JSON input"
       | _ => Ok metadata_event
       end;
     Consumer.Write_err := write_err;
     Consumer.Ack_err := None |}.

Definition message (subject : string) (data : list byte) : Consumer.Msg :=
  {| Consumer.Subject := subject; Consumer.Data := data;
     Consumer.Metadata := Some {| Consumer.Sequence := 42 |} |}.
End Sample.

(** ** Vocabulary of the further properties *)

(** The trace grew, by actions that all satisfy [P]. *)
Definition adds (P : Action -> Prop) (w w' : World) : Prop :=
  exists d, trace w' = trace w ++ d /\ Forall P d.

(** No key of either cache is lost. *)
Definition caches_grow (w w' : World) : Prop :=
  dom (metadataCache w) ⊆ dom (metadataCache w')
  /\ dom (backoffCache w) ⊆ dom (backoffCache w').

(** Everything kept per peer is the same for the peers other than [pid]. *)
Definition others_untouched (pid : PeerID) (w w' : World) : Prop :=
  forall q, q <> pid ->
    metadataCache w' !! q = metadataCache w !! q
    /\ backoffCache w' !! q = backoffCache w !! q
    /\ (q ∈ conns w' <-> q ∈ conns w).

(** The action is about the peer [pid]. *)
Definition concerns (pid : PeerID) (a : Action) : Prop :=
  match a with
  | ARpc _ p => p = pid
  | ASetStatus _ => True
  | AEmitMetadata p addrInfo _ => p = pid /\ ID addrInfo = pid
  | AMetadataCachePut p _ => p = pid
  | ABackoffCachePut p addrInfo => p = pid /\ ID addrInfo = pid
  | AClosePeer p => p = pid
  end.

(** A Goodbye carries the reason code 3. *)
Definition goodbye_reason_3 (a : Action) : Prop :=
  match a with
  | ARpc (RpcGoodbye reason) _ => reason = 3%Z
  | _ => True
  end.

(** What the inbound flow may do: the MetaData request, the emission, the
    Metadata Cache insertion, and the Goodbye and close of the cleanup. *)
Definition inbound_action (a : Action) : Prop :=
  match a with
  | ARpc RpcMetaData _ | ARpc (RpcGoodbye _) _ => True
  | AEmitMetadata _ _ _ | AMetadataCachePut _ _ | AClosePeer _ => True
  | ARpc RpcStatus _ | ARpc RpcPing _ => False
  | ASetStatus _ | ABackoffCachePut _ _ => False
  end.



(** The line a successful handshake leaves in the file log. *)
Definition handshake_line (pid : PeerID) (md : MetaDataV1) (w : World) : FileLine :=
  {| fl_time := clock w; fl_id := pid; fl_seq := SeqNumber md;
     fl_attnets := hex_EncodeToString (Attnets md) |}.


(** Message dispositions of the consumer. *)
Definition is_Term (e : Consumer.Effect) : bool :=
  match e with Consumer.Term => true | _ => false end.

Definition is_Ack (e : Consumer.Effect) : bool :=
  match e with Consumer.Ack => true | _ => false end.

Definition is_Write (e : Consumer.Effect) : bool :=
  match e with
  | Consumer.WritePeerDiscovered _ | Consumer.WriteMetadataReceived _ => true
  | _ => false
  end.

Definition tally (p : Consumer.Effect -> bool) (t : list Consumer.Effect) : nat :=
  length (List.filter p t).

(** What the inbound flow leaves alone. *)
Definition same_status_and_backoff (w w' : World) : Prop :=
  reqResp_status w' = reqResp_status w /\ backoffCache w' = backoffCache w.


(** The remote hung up during one of the three RPCs of the Validate
    procedure. *)
Definition hung_up_during_Validate (r : Remote) : bool :=
  hangs_up (on_Status r) || hangs_up (on_Ping r) || hangs_up (on_MetaData r).

(** The Goodbye and close of the cleanup, when it finds the peer connected. *)
Definition goodbye_and_close (connected : bool) (pid : PeerID) : list Action :=
  if connected then [ARpc (RpcGoodbye 3) pid; AClosePeer pid] else [].

(** The two lines the inbound flow can log before it gives up. *)
Definition inbound_entry_line (pid : PeerID) : LogLine :=
  {| ll_level := InfoLevel; ll_fields := [FStr "peer" pid];
     ll_msg := "Handling new inbound connection" |}.

Definition closed_early_line (pid : PeerID) : LogLine :=
  {| ll_level := WarnLevel; ll_fields := [FStr "peer" pid];
     ll_msg := "Connection was closed before handshake completed" |}.

Definition metadata_failed_line (pid : PeerID) (err : error) : LogLine :=
  {| ll_level := WarnLevel; ll_fields := [FStr "peer" pid; FErr err];
     ll_msg := "Failed requesting metadata" |}.

(** More sample data: metadata with a lower sequence number, and a remote
    that answers it. *)
Module Sample2.
Definition md3 : MetaDataV1 :=
  {| SeqNumber := 3; Attnets := [x0f]; Syncnets := [] |}.

Definition stale : Remote :=
  {| on_Status := Sample.reply (Ok Sample.ahead); on_Ping := Sample.reply None;
     on_MetaData := Sample.reply (Ok md3); on_Goodbye := Sample.reply None;
     on_Sleep := false |}.

Definition metadata_times_out : Remote :=
  {| on_Status := Sample.reply (Ok Sample.ahead); on_Ping := Sample.reply None;
     on_MetaData := Sample.reply (Err "context deadline exceeded");
     on_Goodbye := Sample.reply None;
     on_Sleep := false |}.

Definition leaves_early : Remote :=
  {| on_Status := Sample.reply (Ok Sample.ahead); on_Ping := Sample.reply None;
     on_MetaData := Sample.reply (Ok Sample.md7); on_Goodbye := Sample.reply None;
     on_Sleep := true |}.
End Sample2.

(** ** consumer/main.go: start-up and shutdown *)

Module Startup.

(** [jetstream.ConsumerConfig] with the fields lines 121-126 set. *)
Record ConsumerConfig := {
  Name : string;
  Durable : string;
  Description : string;
  AckExplicitPolicy : bool
}.

(** What [main] does to the outside, in order. *)
Inductive Call :=
| NatsConnect (url : string)
| NatsClose
| JetStreamNew
| NewLocalFileWriter (name : string)
| FileClose (name : string)
| NewParquetWriter (file : string) (np : Z)
| CreateOrUpdateConsumer (stream : string) (cfg : ConsumerConfig)
| Consume
| ConsumeStop
| AwaitSignal
| Printf (line : string)
| LogFatal (err : error) (msg : string).

(** What [main] depends on: the flag value, the fresh UUID, and the error
    of every call that can fail. *)
Record Env := {
  natsURL : string;
  uniqueID : string;
  Connect_err : option error;
  JetStream_err : option error;
  PeerFile_err : option error;
  MetadataFile_err : option error;
  PeerWriter_err : option error;
  MetadataWriter_err : option error;
  CreateConsumer_err : option error;
  Consume_err : option error
}.

(** The process: the calls made so far, and how the goroutine ends. *)
Definition Proc (A : Type) : Type := list Call -> Outcome A * list Call.

Definition ret {A} (a : A) : Proc A := fun t => (Returned a, t).

Definition bind {A B} (m : Proc A) (k : A -> Proc B) : Proc B :=
  fun t =>
    match m t with
    | (Returned a, t') => k a t'
    | (Panicked msg, t') => (Panicked msg, t')
    | (Exited code, t') => (Exited code, t')
    end.

Definition call (c : Call) : Proc unit := fun t => (Returned tt, t ++ [c]).

(** [defer]: as for the flows, the deferred call runs when the body returns
    or panics, and not after [os.Exit]. *)
Definition defer {A} (deferred : Proc unit) (body : Proc A) : Proc A :=
  fun t =>
    match body t with
    | (Exited code, t') => (Exited code, t')
    | (Returned a, t') =>
        match deferred t' with
        | (Returned _, t'') => (Returned a, t'')
        | (Panicked msg, t'') => (Panicked msg, t'')
        | (Exited code, t'') => (Exited code, t'')
        end
    | (Panicked msg, t') =>
        match deferred t' with
        | (Returned _, t'') => (Panicked msg, t'')
        | (Panicked msg', t'') => (Panicked msg', t'')
        | (Exited code, t'') => (Exited code, t'')
        end
    end.

Declare Scope proc_scope.
Notation "x <- m ;; k" := (bind m (fun x => k))
  (at level 100, m at next level, right associativity) : proc_scope.
Notation "m ;; k" := (bind m (fun _ => k))
  (at level 100, right associativity) : proc_scope.
Local Open Scope proc_scope.

(** [log.Fatal().Err(err).Msg(msg)]: the line is written and the process
    exits with status 1. *)
Definition log_Fatal_Msg (err : error) (msg : string) : Proc unit :=
  call (LogFatal err msg) ;;
  fun t => (Exited 1, t).

(** [eventSourcingConsumer], lines 115-136: the error it returns. *)
Definition eventSourcingConsumer (env : Env) : Proc (option error) :=
  let consumerCfg :=
    {| Name := ("consumer-" ++ uniqueID env)%string;
       Durable := ("consumer-" ++ uniqueID env)%string;
       Description := "Consumes valtrack events";
       AckExplicitPolicy := true |} in
  call (CreateOrUpdateConsumer "EVENTS" consumerCfg) ;;
  match CreateConsumer_err env with
  | Some err => ret (Some err)
  | None =>
      call Consume ;;
      ret (Consume_err env)
  end.

(** [main], lines 51-113.  [<-quit] is the wait for the signal; what comes
    after it is what the program does once the signal is there. *)
Definition main (env : Env) : Proc unit :=
  call (NatsConnect (natsURL env)) ;;
  match Connect_err env with
  | Some err => log_Fatal_Msg err "Error connecting to NATS"
  | None => ret tt
  end ;;
  defer (call NatsClose) (
    call JetStreamNew ;;
    match JetStream_err env with
    | Some err => log_Fatal_Msg err "Error creating JetStream context"
    | None => ret tt
    end ;;
    call (NewLocalFileWriter "peer_discovered.parquet") ;;
    match PeerFile_err env with
    | Some err => call (Printf ("Error creating Parquet file: " ++ err)%string)
    | None =>
    defer (call (FileClose "peer_discovered.parquet")) (
      call (NewLocalFileWriter "metadata_received.parquet") ;;
      match MetadataFile_err env with
      | Some err => call (Printf ("Error creating Parquet file: " ++ err)%string)
      | None =>
      defer (call (FileClose "metadata_received.parquet")) (
        call (NewParquetWriter "peer_discovered.parquet" 4) ;;
        match PeerWriter_err env with
        | Some err =>
            call (Printf ("Error creating Peer discovered Parquet writer: " ++ err)%string)
        | None =>
        call (NewParquetWriter "metadata_received.parquet" 4) ;;
        match MetadataWriter_err env with
        | Some err =>
            call (Printf ("Error creating Metadata Parquet writer: " ++ err)%string)
        | None =>
        cerr <- eventSourcingConsumer env ;;
        match cerr with
        | Some err => log_Fatal_Msg err "Error creating consumer"
        | None => ret tt
        end ;;
        defer (call ConsumeStop) (call AwaitSignal)
        end
        end)
      end)
    end).

(** The exit status of the program. *)
Definition exit_status (o : Outcome unit) : Z :=
  match o with
  | Returned _ => 0
  | Panicked _ => 2
  | Exited code => code
  end.

(** The calls that give a resource back. *)
Definition is_release (c : Call) : bool :=
  match c with
  | NatsClose | FileClose _ | ConsumeStop => true
  | _ => false
  end.

(** The steps before the consumer is created all went well. *)
Definition ready (env : Env) : bool :=
  match Connect_err env, JetStream_err env, PeerFile_err env,
        MetadataFile_err env, PeerWriter_err env, MetadataWriter_err env with
  | None, None, None, None, None, None => true
  | _, _, _, _, _, _ => false
  end.

(** The release calls of the resources [main] has got hold of, in the
    order it got them. *)
Definition acquired (env : Env) : list Call :=
  NatsClose ::
  match PeerFile_err env with
  | Some _ => []
  | None =>
      FileClose "peer_discovered.parquet" ::
      match MetadataFile_err env with
      | Some _ => []
      | None =>
          FileClose "metadata_received.parquet" ::
          match PeerWriter_err env, MetadataWriter_err env with
          | None, None => [ConsumeStop]
          | _, _ => []
          end
      end
  end.

End Startup.

Module Sample3.
Definition env (peer_file consumer : option error) : Startup.Env :=
  {| Startup.natsURL := "nats://localhost:4222";
     Startup.uniqueID := "0b5e";
     Startup.Connect_err := None;
     Startup.JetStream_err := None;
     Startup.PeerFile_err := peer_file;
     Startup.MetadataFile_err := None;
     Startup.PeerWriter_err := None;
     Startup.MetadataWriter_err := None;
     Startup.CreateConsumer_err := consumer;
     Startup.Consume_err := None |}.
End Sample3.

(** Goodbye and close come in pairs: each Goodbye has the reason code 3 and
    is followed at once by the close of the same peer, and there is no
    other close. *)
Fixpoint paired (t : list Action) : Prop :=
  match t with
  | [] => True
  | ARpc (RpcGoodbye reason) p :: t' =>
      match t' with
      | AClosePeer q :: t'' => reason = 3%Z /\ p = q /\ paired t''
      | _ => False
      end
  | AClosePeer _ :: _ => False
  | _ :: t' => paired t'
  end.

(** The trace grew by Goodbye-and-close pairs and other actions. *)
Definition adds_paired (w w' : World) : Prop :=
  exists d, trace w' = trace w ++ d /\ paired d.

(** * Properties *)

(** ** Basic facts *)

Lemma bytes_Equal_spec (a b : list byte) : bytes_Equal a b = true <-> a = b.
Proof.
  revert b; induction a as [|x a IH]; intros [|y b]; simpl; split;
    try congruence; try done.
  - intros H. apply andb_true_iff in H as [Hxy Hab].
    apply byte_dec_bl in Hxy. apply IH in Hab. congruence.
  - intros H. injection H as -> ->. apply andb_true_iff. split.
    + by apply byte_dec_lb.
    + by apply IH.
Qed.

Lemma bytes_Equal_false (a b : list byte) : bytes_Equal a b = false <-> a <> b.
Proof.
  rewrite <- bytes_Equal_spec. destruct (bytes_Equal a b); split; congruence.
Qed.

(** The states a flow can go through are related by [R] when every
    primitive step is; the rules below carry a reflexive and transitive
    [R] through [bind] and [defer]. *)
Section Stepwise.
Context (R : World -> World -> Prop) `{!PreOrder R}.

Lemma keeps_ret {A} (a : A) : keeps R (ret a).
Proof. intros w. reflexivity. Qed.

Lemma keeps_gets {A} (f : World -> A) : keeps R (gets f).
Proof. intros w. reflexivity. Qed.

Lemma keeps_panic {A} msg : keeps R (@panic A msg).
Proof. intros w. reflexivity. Qed.

Lemma keeps_os_Exit {A} code : keeps R (@os_Exit A code).
Proof. intros w. reflexivity. Qed.

Lemma keeps_unsent e : keeps R (unsent e).
Proof. intros w. reflexivity. Qed.

Lemma keeps_modify f : (forall w, R w (f w)) -> keeps R (modify f).
Proof. intros H w. apply H. Qed.

Lemma keeps_bind {A B} (m : Flow A) (k : A -> Flow B) :
  keeps R m -> (forall a, keeps R (k a)) -> keeps R (bind m k).
Proof.
  intros Hm Hk w. unfold bind. specialize (Hm w).
  destruct (m w) as [[a|msg|code] w1]; simpl in *; auto.
  transitivity w1; [exact Hm | apply Hk].
Qed.

Lemma keeps_defer {A} (d : Flow unit) (body : Flow A) :
  keeps R d -> keeps R body -> keeps R (defer d body).
Proof.
  intros Hd Hb w. unfold defer. specialize (Hb w).
  destruct (body w) as [[a|msg|code] w1]; simpl in *; auto;
    specialize (Hd w1); destruct (d w1) as [[u|msg'|code'] w2]; simpl in *;
    by transitivity w1.
Qed.
End Stepwise.

(** One rule per construct of a flow. *)
Ltac keeps_step :=
  lazymatch goal with
  | |- keeps _ (bind _ _) => apply keeps_bind; [apply _ | | intros ?]
  | |- keeps _ (defer _ _) => apply keeps_defer; [apply _ | | ]
  | |- keeps _ (ret _) => apply keeps_ret; apply _
  | |- keeps _ (gets _) => apply keeps_gets; apply _
  | |- keeps _ (panic _) => apply keeps_panic; apply _
  | |- keeps _ (os_Exit _) => apply keeps_os_Exit; apply _
  | |- keeps _ (unsent _) => apply keeps_unsent; apply _
  | |- keeps _ (modify _) => apply keeps_modify; intros ?
  | |- keeps _ (match ?x with _ => _ end) => destruct x
  | |- keeps _ (if ?x then _ else _) => destruct x
  end.

(** Unfolds a flow down to functions on the world. *)
Ltac unfold_flow :=
  cbv [validatePeer cleanup outbound_body inbound_body handleOutboundConnection
       handleInboundConnection Connected Disconnected notify
       reqResp_Status reqResp_Ping reqResp_MetaData reqResp_Goodbye rpc
       reqResp_SetStatus addToMetadataCache addToBackoffCache sendMetadataEvent
       getMetadataFromCache Fprintf_fileLogger Connectedness ClosePeer
       Peerstore_Addrs time_Sleep await emit Msg unsent slice_to
       defer bind ret gets modify panic os_Exit
       log_Debug log_Info log_Warn log_Error log_Fatal Str Int Err_ with_field
       ev_level ev_fields].

(** Unfolds a flow down to [bind], [modify] and the like, for [keeps]. *)
Ltac unfold_steps :=
  cbv [validatePeer cleanup outbound_body inbound_body handleOutboundConnection
       handleInboundConnection Connected Disconnected notify
       reqResp_Status reqResp_Ping reqResp_MetaData reqResp_Goodbye rpc
       reqResp_SetStatus addToMetadataCache addToBackoffCache sendMetadataEvent
       getMetadataFromCache Fprintf_fileLogger Connectedness ClosePeer
       Peerstore_Addrs time_Sleep await emit Msg slice_to
       log_Debug log_Info log_Warn log_Error log_Fatal Str Int Err_ with_field
       ev_level ev_fields].

#[local] Instance head_le_preorder : PreOrder head_le.
Proof. split; unfold head_le; intros ?; intros; lia. Qed.

#[local] Instance log_calm_preorder : PreOrder log_calm.
Proof.
  split.
  - intros w. exists []. by rewrite app_nil_r.
  - intros w1 w2 w3 (d1 & E1 & F1) (d2 & E2 & F2). exists (d1 ++ d2). split.
    + by rewrite E2, E1, app_assoc.
    + by apply Forall_app.
Qed.

(** ** The status record *)

Lemma validatePeer_status r pid addrInfo w :
  reqResp_status (snd (validatePeer r pid addrInfo w)) =
  match answer (on_Status r) with
  | Ok st => if rule_fires w st then st else reqResp_status w
  | Err _ => reqResp_status w
  end.
Proof.
  destruct r as [[sa sh] [pa ph] [ma mh] g sl]. unfold rule_fires.
  unfold_flow. simpl.
  destruct sa as [st|e], sh, pa as [pe|], ph, ma as [md|me], mh; simpl;
    try reflexivity;
    destruct (bytes_Equal _ _); simpl; try reflexivity;
    destruct (_ <? _)%N; reflexivity.
Qed.

Lemma rule_fires_spec w st :
  rule_fires w st = true <->
  ForkDigest st = slice_of (cfg_ForkDigest w)
  /\ (HeadSlot (reqResp_status w) < HeadSlot st)%N.
Proof.
  unfold rule_fires. rewrite andb_true_iff, bytes_Equal_spec, N.ltb_lt. tauto.
Qed.









(** C10.  When the compare-and-update rule fires (the peer's fork digest is
    the local one and its head slot is strictly greater), the local status
    record becomes the peer's record as a whole, finalized root and epoch
    and head root included; when it does not fire, the local record is
    untouched. *)
Theorem C10_status_replaced_as_a_whole :
  forall (r : Remote) (pid : PeerID) (addrInfo : AddrInfo) (w : World),
    let w' := snd (validatePeer r pid addrInfo w) in
    (forall st, answer (on_Status r) = Ok st ->
                ForkDigest st = slice_of (cfg_ForkDigest w) ->
                (HeadSlot (reqResp_status w) < HeadSlot st)%N ->
                reqResp_status w' = st)
    /\ (~ (exists st, answer (on_Status r) = Ok st
                      /\ ForkDigest st = slice_of (cfg_ForkDigest w)
                      /\ (HeadSlot (reqResp_status w) < HeadSlot st)%N) ->
        reqResp_status w' = reqResp_status w).
Proof.
  intros r pid addrInfo w w'; subst w'. rewrite validatePeer_status. split.
  - intros st -> Hd Hs.
    by rewrite (proj2 (rule_fires_spec w st) (conj Hd Hs)).
  - intros Hno. destruct (answer (on_Status r)) as [st|e]; [|reflexivity].
    destruct (rule_fires w st) eqn:E; [|reflexivity].
    apply rule_fires_spec in E. exfalso. apply Hno. by exists st.
Qed.

Lemma C10_status_replaced_as_a_whole_witness :
  reqResp_status
    (snd (validatePeer (Sample.healthy Sample.ahead) "P" Sample.addrP Sample.node))
  = Sample.ahead
  /\ reqResp_status
       (snd (validatePeer (Sample.healthy Sample.foreign) "P" Sample.addrP Sample.node))
     = reqResp_status Sample.node.
Proof.
  destruct (C10_status_replaced_as_a_whole (Sample.healthy Sample.ahead) "P"
              Sample.addrP Sample.node) as (Hfires & _).
  destruct (C10_status_replaced_as_a_whole (Sample.healthy Sample.foreign) "P"
              Sample.addrP Sample.node) as (_ & Hquiet).
  split.
  - apply (Hfires Sample.ahead).
    + reflexivity.
    + reflexivity.
    + vm_compute. reflexivity.
  - apply Hquiet.
    intros (st & Hst & Hd & _). vm_compute in Hst, Hd.
    injection Hst as <-. discriminate Hd.
Defined.

(** ** The deferred cleanup *)

Lemma not_elem_of_closed (pid : PeerID) (c : gset PeerID) : pid ∉ c ∖ {[pid]}.
Proof.
  intros [_ H]%elem_of_difference. apply H. by apply elem_of_singleton.
Qed.

Lemma cleanup_returns r pid w : fst (cleanup r pid w) = Returned tt.
Proof.
  destruct r as [s p m [ga gh] sl]. unfold_flow. simpl.
  destruct (bool_decide (pid ∈ conns w)); simpl; [|reflexivity].
  destruct ga, gh; reflexivity.
Qed.

Lemma cleanup_trace r pid w :
  trace (snd (cleanup r pid w)) = trace w ++ cleanup_actions pid w.
Proof.
  destruct r as [s p m [ga gh] sl]. unfold cleanup_actions. unfold_flow. simpl.
  destruct (bool_decide (pid ∈ conns w)); simpl.
  - destruct ga, gh; simpl; by rewrite <- app_assoc.
  - by rewrite app_nil_r.
Qed.

Lemma cleanup_closed r pid w : pid ∉ conns (snd (cleanup r pid w)).
Proof.
  destruct r as [s p m [ga gh] sl]. unfold_flow. simpl.
  destruct (bool_decide (pid ∈ conns w)) eqn:E; simpl.
  - destruct ga, gh; simpl; apply not_elem_of_closed.
  - by apply bool_decide_eq_false in E.
Qed.

Lemma cleanup_frame r pid w :
  let w' := snd (cleanup r pid w) in
  reqResp_status w' = reqResp_status w
  /\ metadataCache w' = metadataCache w
  /\ backoffCache w' = backoffCache w.
Proof.
  destruct r as [s p m [ga gh] sl]. unfold_flow. simpl.
  destruct (bool_decide (pid ∈ conns w)); simpl; [|done].
  destruct ga, gh; done.
Qed.

Lemma log_calm_same w w' : log w' = log w -> log_calm w w'.
Proof. intros E. exists nil. rewrite app_nil_r. by split. Qed.

Lemma log_calm_line w l :
  level_rank (ll_level l) <= 3 -> log_calm w (set_log (log w ++ [l]) w).
Proof.
  intros Hl. exists [l]. split; [reflexivity|].
  constructor; [exact Hl | constructor].
Qed.

Ltac log_calm_step :=
  first [ apply log_calm_line; simpl; lia
        | apply log_calm_same; repeat case_match; reflexivity ].

Lemma cleanup_log_calm r pid : keeps log_calm (cleanup r pid).
Proof. unfold_steps. repeat keeps_step; log_calm_step. Qed.

(** [defer cleanup] around a body: the cleanup starts where the body
    stopped, unless the body exited the process, and the flow ends the way
    the body ended. *)
Lemma defer_cleanup_fst {A} r pid (body : Flow A) w :
  fst (defer (cleanup r pid) body w) = fst (body w).
Proof.
  unfold defer. destruct (body w) as [[a|msg|code] w1]; simpl; [| |reflexivity];
    pose proof (cleanup_returns r pid w1) as H;
    destruct (cleanup r pid w1) as [[u|msg'|code'] w2]; simpl in *;
    congruence.
Qed.

Lemma defer_cleanup_snd {A} r pid (body : Flow A) w :
  (forall code, fst (body w) <> Exited code) ->
  snd (defer (cleanup r pid) body w) = snd (cleanup r pid (snd (body w))).
Proof.
  unfold defer. intros Hne.
  destruct (body w) as [[a|msg|code] w1]; simpl in *;
    [| |by destruct (Hne code)];
    by destruct (cleanup r pid w1) as [[u|msg'|code'] w2].
Qed.

(** ** How the flows end *)

Lemma validatePeer_returns r pid addrInfo w :
  fst (validatePeer r pid addrInfo w) = Returned (Validate_error r).
Proof.
  destruct r as [[sa sh] [pa ph] [ma mh] g sl]. unfold Validate_error.
  unfold_flow. simpl.
  destruct sa as [st|e], sh, pa as [pe|], ph, ma as [md|me], mh; simpl;
    try reflexivity;
    destruct (bytes_Equal _ _); simpl; try reflexivity;
    destruct (_ <? _)%N; reflexivity.
Qed.

Lemma validatePeer_run r pid addrInfo w :
  validatePeer r pid addrInfo w
  = (Returned (Validate_error r), snd (validatePeer r pid addrInfo w)).
Proof.
  rewrite <- (validatePeer_returns r pid addrInfo w).
  by destruct (validatePeer r pid addrInfo w).
Qed.

Lemma validatePeer_trace r pid addrInfo w :
  trace (snd (validatePeer r pid addrInfo w)) = trace w ++
  match answer (on_Status r), answer (on_Ping r), answer (on_MetaData r) with
  | Err _, _, _ => [ARpc RpcStatus pid]
  | Ok st, Some _, _ =>
      [ARpc RpcStatus pid] ++ compare_and_update w st ++ [ARpc RpcPing pid]
  | Ok st, None, Err _ =>
      [ARpc RpcStatus pid] ++ compare_and_update w st
        ++ [ARpc RpcPing pid; ARpc RpcMetaData pid]
  | Ok st, None, Ok md =>
      [ARpc RpcStatus pid] ++ compare_and_update w st
        ++ [ARpc RpcPing pid; ARpc RpcMetaData pid;
            AEmitMetadata pid addrInfo md; AMetadataCachePut pid md]
  end.
Proof.
  destruct r as [[sa sh] [pa ph] [ma mh] g sl].
  unfold compare_and_update, rule_fires. unfold_flow. simpl.
  destruct sa as [st|e], sh, pa as [pe|], ph, ma as [md|me], mh; simpl;
    try reflexivity;
    destruct (bytes_Equal _ _); simpl; rewrite <- ?app_assoc; try reflexivity;
    destruct (_ <? _)%N; simpl; rewrite <- ?app_assoc; reflexivity.
Qed.

Lemma validatePeer_metadataCache r pid addrInfo w :
  metadataCache (snd (validatePeer r pid addrInfo w)) =
  match answer (on_Status r), answer (on_Ping r), answer (on_MetaData r) with
  | Ok _, None, Ok md => <[pid := (md, clock w)]> (metadataCache w)
  | _, _, _ => metadataCache w
  end.
Proof.
  destruct r as [[sa sh] [pa ph] [ma mh] g sl]. unfold_flow. simpl.
  destruct sa as [st|e], sh, pa as [pe|], ph, ma as [md|me], mh; simpl;
    try reflexivity;
    destruct (bytes_Equal _ _); simpl; try reflexivity;
    destruct (_ <? _)%N; reflexivity.
Qed.

#[local] Instance same_backoff_and_clock_preorder : PreOrder same_backoff_and_clock.
Proof.
  split.
  - by intros w.
  - intros w1 w2 w3 (? & ? & ?) (? & ? & ?).
    unfold same_backoff_and_clock. repeat split; congruence.
Qed.

Lemma validatePeer_frame r pid addrInfo :
  keeps same_backoff_and_clock (validatePeer r pid addrInfo).
Proof.
  unfold_steps. repeat keeps_step; by repeat case_match.
Qed.

Lemma validatePeer_log_calm r pid addrInfo : keeps log_calm (validatePeer r pid addrInfo).
Proof. unfold_steps. repeat keeps_step; log_calm_step. Qed.

(** The two branches of [outbound_body]. *)
Lemma outbound_body_no_address r pid w :
  default [] (peerstore w !! pid) = [] ->
  outbound_body r pid w
  = (log_Error |> Str "peer" pid |> Msg "No addresses found for peer") w.
Proof.
  intros E. unfold outbound_body, bind at 1, Peerstore_Addrs, gets. by rewrite E.
Qed.

Lemma outbound_body_address r pid w a rest :
  default [] (peerstore w !! pid) = a :: rest ->
  let addrInfo := {| ID := pid; Addrs := [a] |} in
  let w1 := snd (validatePeer r pid addrInfo w) in
  outbound_body r pid w
  = match Validate_error r with
    | Some err =>
        ((log_Warn |> Str "peer" pid |> Err_ err |> Msg "Handshake failed") ;;
         addToBackoffCache pid addrInfo) w1
    | None => (Returned tt, w1)
    end.
Proof.
  intros E. unfold outbound_body, bind at 1, Peerstore_Addrs, gets. rewrite E.
  simpl. unfold slice_to. simpl. unfold bind at 1, ret at 1.
  unfold bind at 1. rewrite validatePeer_run.
  by destruct (Validate_error r).
Qed.

Lemma outbound_body_returns r pid w : fst (outbound_body r pid w) = Returned tt.
Proof.
  destruct (default [] (peerstore w !! pid)) as [|a rest] eqn:E.
  - by rewrite outbound_body_no_address.
  - rewrite (outbound_body_address r pid w a rest E).
    by destruct (Validate_error r).
Qed.

(** The inbound flow: its first log line, then the deferred cleanup around
    the body. *)

Lemma handleInboundConnection_unfold r pid w :
  handleInboundConnection r pid w
  = defer (cleanup r pid) (inbound_body r pid) (inbound_entry pid w).
Proof. reflexivity. Qed.

Lemma inbound_body_outcome r pid w :
  fst (inbound_body r pid w)
  = if inbound_without_address r pid w
    then Panicked "slice bounds out of range"
    else Returned tt.
Proof.
  destruct r as [s p [ma mh] g sl]. unfold inbound_without_address.
  unfold_flow. simpl. destruct sl; simpl.
  - rewrite (bool_decide_eq_false_2 _ (not_elem_of_closed pid (conns w))).
    simpl. by rewrite andb_false_r.
  - destruct (bool_decide (pid ∈ conns w)); simpl; [|reflexivity].
    destruct ma as [md|e], mh; simpl; try reflexivity;
      destruct (default [] (peerstore w !! pid)); reflexivity.
Qed.

Lemma inbound_body_no_exit r pid w code : fst (inbound_body r pid w) <> Exited code.
Proof.
  rewrite inbound_body_outcome. by destruct (inbound_without_address r pid w).
Qed.

Lemma inbound_body_log_calm r pid : keeps log_calm (inbound_body r pid).
Proof. unfold_steps. repeat keeps_step; log_calm_step. Qed.

Lemma inbound_body_success r pid w md a rest :
  pid ∈ conns w -> on_Sleep r = false ->
  answer (on_MetaData r) = Ok md ->
  default [] (peerstore w !! pid) = a :: rest ->
  let w' := snd (inbound_body r pid w) in
  trace w' = trace w ++ [ARpc RpcMetaData pid;
                         AEmitMetadata pid {| ID := pid; Addrs := [a] |} md;
                         AMetadataCachePut pid md]
  /\ metadataCache w' = <[pid := (md, clock w)]> (metadataCache w).
Proof.
  destruct r as [s p [ma mh] g sl]. simpl. intros Hc -> -> Ha.
  unfold_flow. simpl. rewrite (bool_decide_eq_true_2 _ Hc). simpl.
  destruct mh; simpl; rewrite Ha; simpl; rewrite <- !app_assoc; done.
Qed.

(** ** Traces *)

Lemma new_actions_app w w' d : trace w' = trace w ++ d -> new_actions w w' = d.
Proof. intros E. unfold new_actions. rewrite E. apply drop_app_length. Qed.

Lemma count_app p t1 t2 : count p (t1 ++ t2) = count p t1 + count p t2.
Proof. induction t1 as [|a t1 IH]; simpl; [reflexivity|]. rewrite IH. lia. Qed.

Lemma count_compare_and_update p w st :
  (forall st', p (ASetStatus st') = false) -> count p (compare_and_update w st) = 0.
Proof.
  intros Hp. unfold compare_and_update.
  destruct (rule_fires w st); simpl; [by rewrite Hp | reflexivity].
Qed.

Lemma count_cleanup_actions p pid w :
  p (ARpc (RpcGoodbye 3) pid) = false -> p (AClosePeer pid) = false ->
  count p (cleanup_actions pid w) = 0.
Proof.
  intros H1 H2. unfold cleanup_actions.
  destruct (bool_decide (pid ∈ conns w)); simpl; [by rewrite H1, H2 | reflexivity].
Qed.

Lemma Validate_fails_error r :
  Validate_fails r = true <-> exists err, Validate_error r = Some err.
Proof.
  unfold Validate_fails, Validate_error.
  destruct (answer (on_Status r)), (answer (on_Ping r)), (answer (on_MetaData r));
    split; intros H; try done; try (by eexists); by destruct H.
Qed.

(** C6.  The Validate procedure goes Status, compare-and-update of the local
    status record, Ping, MetaData, event emission, cache insertion, in that
    order; the first RPC that fails ends it there, nothing after it is done,
    and its error alone (wrapped with the step's name) is handed back. *)
Theorem C6_Validate_strict_order :
  forall (r : Remote) (pid : PeerID) (addrInfo : AddrInfo) (w : World),
    let w' := snd (validatePeer r pid addrInfo w) in
    fst (validatePeer r pid addrInfo w) =
      Returned
        match answer (on_Status r) with
        | Err e => Some (errors_Wrap e "Failed to get status from peer")
        | Ok _ =>
            match answer (on_Ping r) with
            | Some e => Some (errors_Wrap e "Failed to ping peer")
            | None =>
                match answer (on_MetaData r) with
                | Err e => Some (errors_Wrap e "Failed to get metadata from peer")
                | Ok _ => None
                end
            end
        end
    /\ new_actions w w' =
         ARpc RpcStatus pid ::
         match answer (on_Status r) with
         | Err _ => []
         | Ok st =>
             compare_and_update w st ++
             ARpc RpcPing pid ::
             match answer (on_Ping r) with
             | Some _ => []
             | None =>
                 ARpc RpcMetaData pid ::
                 match answer (on_MetaData r) with
                 | Err _ => []
                 | Ok md => [AEmitMetadata pid addrInfo md;
                             AMetadataCachePut pid md]
                 end
             end
         end.
Proof.
  intros r pid addrInfo w w'. split.
  - rewrite validatePeer_returns. unfold Validate_error.
    by destruct (answer (on_Status r)), (answer (on_Ping r)), (answer (on_MetaData r)).
  - apply new_actions_app. subst w'. rewrite validatePeer_trace.
    by destruct (answer (on_Status r)), (answer (on_Ping r)), (answer (on_MetaData r)).
Qed.

(** C3, as the code has it.  A successful Validate run, and a successful
    inbound flow, make exactly one event emission and exactly one Metadata
    Cache insertion, for the same peer and metadata, the emission first and
    the insertion right after it; when the run is over the cache holds the
    entry. *)
Theorem C3_one_emission_then_one_insertion :
  forall (r : Remote) (pid : PeerID) (w : World),
    (forall addrInfo,
        fst (validatePeer r pid addrInfo w) = Returned None ->
        let t := new_actions w (snd (validatePeer r pid addrInfo w)) in
        count is_emission t = 1 /\ count is_metadata_insertion t = 1
        /\ exists md pre,
             t = pre ++ [AEmitMetadata pid addrInfo md; AMetadataCachePut pid md]
             /\ metadataCache (snd (validatePeer r pid addrInfo w)) !! pid
                = Some (md, clock w))
    /\ (forall md a rest,
          pid ∈ conns w -> on_Sleep r = false ->
          answer (on_MetaData r) = Ok md ->
          default [] (peerstore w !! pid) = a :: rest ->
          let t := new_actions w (snd (handleInboundConnection r pid w)) in
          count is_emission t = 1 /\ count is_metadata_insertion t = 1
          /\ exists pre post,
               t = pre ++ [AEmitMetadata pid {| ID := pid; Addrs := [a] |} md;
                           AMetadataCachePut pid md] ++ post
               /\ metadataCache (snd (handleInboundConnection r pid w)) !! pid
                  = Some (md, clock w)).
Proof.
  intros r pid w. split.
  - intros addrInfo Hok t.
    rewrite validatePeer_returns in Hok. injection Hok as Hok.
    pose proof (validatePeer_trace r pid addrInfo w) as Ht.
    pose proof (validatePeer_metadataCache r pid addrInfo w) as Hm.
    unfold Validate_error in Hok.
    destruct (answer (on_Status r)) as [st|?]; [|discriminate].
    destruct (answer (on_Ping r)) as [?|]; [discriminate|].
    destruct (answer (on_MetaData r)) as [md|?]; [|discriminate].
    apply new_actions_app in Ht. subst t. rewrite Ht, Hm.
    rewrite !count_app, !count_compare_and_update by done. simpl.
    repeat split; try reflexivity.
    exists md, ([ARpc RpcStatus pid] ++ compare_and_update w st
                ++ [ARpc RpcPing pid; ARpc RpcMetaData pid]).
    split.
    + by rewrite <- !app_assoc.
    + apply lookup_insert_eq.
  - intros md a rest Hc Hs Hmd Ha t.
    assert (Hsnd : snd (handleInboundConnection r pid w)
                   = snd (cleanup r pid (snd (inbound_body r pid (inbound_entry pid w))))).
    { rewrite handleInboundConnection_unfold. apply defer_cleanup_snd.
      intros code. apply inbound_body_no_exit. }
    destruct (inbound_body_success r pid (inbound_entry pid w) md a rest Hc Hs Hmd Ha)
      as [Ht Hm].
    set (wb := snd (inbound_body r pid (inbound_entry pid w))) in *.
    assert (Et : t = [ARpc RpcMetaData pid;
                      AEmitMetadata pid {| ID := pid; Addrs := [a] |} md;
                      AMetadataCachePut pid md] ++ cleanup_actions pid wb).
    { subst t. apply new_actions_app. rewrite Hsnd, cleanup_trace, Ht.
      by rewrite <- app_assoc. }
    rewrite Et, !count_app, !count_cleanup_actions by done. simpl.
    repeat split; try reflexivity.
    exists [ARpc RpcMetaData pid], (cleanup_actions pid wb). split; [reflexivity|].
    rewrite Hsnd. destruct (cleanup_frame r pid wb) as (_ & -> & _).
    rewrite Hm. apply lookup_insert_eq.
Qed.

Lemma C3_one_emission_then_one_insertion_witness :
  count is_emission
    (new_actions Sample.node
       (snd (validatePeer (Sample.healthy Sample.ahead) "P" Sample.addrP Sample.node))) = 1
  /\ count is_metadata_insertion
       (new_actions Sample.node
          (snd (handleInboundConnection (Sample.healthy Sample.ahead) "P" Sample.node))) = 1.
Proof.
  destruct (C3_one_emission_then_one_insertion (Sample.healthy Sample.ahead) "P" Sample.node)
    as [Hvalidate Hinbound].
  split.
  - apply (Hvalidate Sample.addrP). reflexivity.
  - apply (Hinbound Sample.md7 "/ip4/10.0.0.1/tcp/9000" ["/ip4/10.0.0.2/tcp/9000"]).
    + vm_compute. set_solver.
    + reflexivity.
    + reflexivity.
    + reflexivity.
Defined.

(** C3 as stated does not hold: in a successful Validate run the event is
    emitted first, and the cache insertion is made after it. *)
Lemma C3_insertion_comes_after_emission :
  fst (validatePeer (Sample.healthy Sample.ahead) "P" Sample.addrP Sample.node)
  = Returned None
  /\ new_actions Sample.node
       (snd (validatePeer (Sample.healthy Sample.ahead) "P" Sample.addrP Sample.node))
     = [ARpc RpcStatus "P"; ASetStatus Sample.ahead; ARpc RpcPing "P";
        ARpc RpcMetaData "P"; AEmitMetadata "P" Sample.addrP Sample.md7;
        AMetadataCachePut "P" Sample.md7]
  /\ insertion_not_after_emission
       (new_actions Sample.node
          (snd (validatePeer (Sample.healthy Sample.ahead) "P" Sample.addrP Sample.node)))
     = false.
Proof. repeat split. Qed.

(** ** The outbound flow *)

Lemma handleOutboundConnection_snd r pid w :
  snd (handleOutboundConnection r pid w)
  = snd (cleanup r pid (snd (outbound_body r pid w))).
Proof.
  apply defer_cleanup_snd. intros code. by rewrite outbound_body_returns.
Qed.

Lemma handleInboundConnection_snd r pid w :
  snd (handleInboundConnection r pid w)
  = snd (cleanup r pid (snd (inbound_body r pid (inbound_entry pid w)))).
Proof.
  rewrite handleInboundConnection_unfold. apply defer_cleanup_snd.
  intros code. apply inbound_body_no_exit.
Qed.

(** C7.  When an outbound Validate run fails, whichever of Status, Ping and
    MetaData gave the error, the flow ends with the peer's address info (the
    first known address) in the Backoff Cache, stamped with the time of the
    failure, and the Metadata Cache is what it was before the run. *)
Theorem C7_outbound_failure_backs_off :
  forall (r : Remote) (pid : PeerID) (w : World) (a : Multiaddr) (rest : list Multiaddr),
    default [] (peerstore w !! pid) = a :: rest ->
    Validate_fails r = true ->
    let w' := snd (handleOutboundConnection r pid w) in
    fst (handleOutboundConnection r pid w) = Returned tt
    /\ backoffCache w' !! pid = Some ({| ID := pid; Addrs := [a] |}, clock w)
    /\ metadataCache w' = metadataCache w
    /\ count is_metadata_insertion (new_actions w w') = 0
    /\ count is_backoff_insertion (new_actions w w') = 1.
Proof.
  intros r pid w a rest Ha Hf w'.
  unfold handleOutboundConnection at 1. rewrite defer_cleanup_fst.
  split; [apply outbound_body_returns|].
  subst w'. rewrite handleOutboundConnection_snd.
  pose proof (outbound_body_address r pid w a rest Ha) as Hb. simpl in Hb.
  apply Validate_fails_error in Hf as [err Herr]. rewrite Herr in Hb.
  set (ai := {| ID := pid; Addrs := [a] |}) in *.
  destruct (validatePeer_frame r pid ai w) as (Hbo & Hclock & _).
  pose proof (validatePeer_metadataCache r pid ai w) as Hmd.
  pose proof (validatePeer_trace r pid ai w) as Htr.
  set (w1 := snd (validatePeer r pid ai w)) in *.
  set (wb := snd (outbound_body r pid w)).
  assert (Hwb : backoffCache wb = <[pid := (ai, clock w)]> (backoffCache w1)
                /\ metadataCache wb = metadataCache w
                /\ exists d, trace wb = trace w ++ d ++ [ABackoffCachePut pid ai]
                             /\ count is_metadata_insertion d = 0
                             /\ count is_backoff_insertion d = 0).
  { subst wb. rewrite Hb. unfold_flow. simpl. rewrite Hclock, Hmd, Htr.
    unfold Validate_error in Herr. split; [reflexivity|].
    destruct (answer (on_Status r)) as [st|?].
    - destruct (answer (on_Ping r)) as [?|].
      + split; [reflexivity|].
        exists ([ARpc RpcStatus pid] ++ compare_and_update w st ++ [ARpc RpcPing pid]).
        split; [by rewrite <- !app_assoc|].
        by rewrite !count_app, !count_compare_and_update.
      + destruct (answer (on_MetaData r)) as [md|?]; [discriminate|].
        split; [reflexivity|].
        exists ([ARpc RpcStatus pid] ++ compare_and_update w st
                ++ [ARpc RpcPing pid; ARpc RpcMetaData pid]).
        split; [by rewrite <- !app_assoc|].
        by rewrite !count_app, !count_compare_and_update.
    - split; [reflexivity|]. exists [ARpc RpcStatus pid].
      split; [by rewrite <- !app_assoc|]. done. }
  destruct Hwb as (Hwb1 & Hwb2 & d & Hwb3 & Hd1 & Hd2).
  destruct (cleanup_frame r pid wb) as (_ & -> & ->).
  rewrite Hwb1, Hwb2.
  assert (Hnew : new_actions w (snd (cleanup r pid wb))
                 = d ++ [ABackoffCachePut pid ai] ++ cleanup_actions pid wb).
  { apply new_actions_app. rewrite cleanup_trace, Hwb3. by rewrite <- !app_assoc. }
  rewrite Hnew, !count_app, !count_cleanup_actions, Hd1, Hd2 by done.
  repeat split; try reflexivity. apply lookup_insert_eq.
Qed.

Lemma C7_outbound_failure_backs_off_witness :
  backoffCache (snd (handleOutboundConnection Sample.ping_times_out "P" Sample.node)) !! "P"
  = Some (Sample.addrP, clock Sample.node)
  /\ metadataCache (snd (handleOutboundConnection Sample.ping_times_out "P" Sample.node))
     = metadataCache Sample.node.
Proof.
  destruct (C7_outbound_failure_backs_off Sample.ping_times_out "P" Sample.node
              "/ip4/10.0.0.1/tcp/9000" ["/ip4/10.0.0.2/tcp/9000"])
    as (_ & Hbackoff & Hmetadata & _).
  - reflexivity.
  - reflexivity.
  - split; [exact Hbackoff | exact Hmetadata].
Defined.

(** C4, as the code has it.  An outbound connection to a peer with no known
    address issues none of the handshake RPCs (Status, Ping, MetaData) and
    inserts nothing into the Backoff Cache or the Metadata Cache; all the
    flow does to the peer is the shared cleanup, a Goodbye and a forced
    close when the connection is still open. *)
Theorem C4_no_address_no_handshake :
  forall (r : Remote) (pid : PeerID) (w : World),
    default [] (peerstore w !! pid) = [] ->
    let w' := snd (handleOutboundConnection r pid w) in
    fst (handleOutboundConnection r pid w) = Returned tt
    /\ new_actions w w' = cleanup_actions pid w
    /\ count is_handshake_rpc (new_actions w w') = 0
    /\ backoffCache w' = backoffCache w
    /\ metadataCache w' = metadataCache w.
Proof.
  intros r pid w Ha w'.
  unfold handleOutboundConnection at 1. rewrite defer_cleanup_fst.
  split; [apply outbound_body_returns|].
  subst w'. rewrite handleOutboundConnection_snd.
  rewrite (outbound_body_no_address r pid w Ha).
  set (wb := snd (Msg _ _ w)).
  assert (Hwb : trace wb = trace w /\ conns wb = conns w
                /\ backoffCache wb = backoffCache w
                /\ metadataCache wb = metadataCache w)
    by (subst wb; unfold_flow; simpl; done).
  destruct Hwb as (Ht & Hc & Hb & Hm).
  destruct (cleanup_frame r pid wb) as (_ & -> & ->).
  assert (Hnew : new_actions w (snd (cleanup r pid wb)) = cleanup_actions pid w).
  { apply new_actions_app. rewrite cleanup_trace, Ht.
    unfold cleanup_actions. by rewrite Hc. }
  rewrite Hnew, count_cleanup_actions by done. done.
Qed.

Lemma C4_no_address_no_handshake_witness :
  count is_handshake_rpc
    (new_actions Sample.node
       (snd (handleOutboundConnection (Sample.healthy Sample.ahead) "Q" Sample.node))) = 0
  /\ backoffCache (snd (handleOutboundConnection (Sample.healthy Sample.ahead) "Q" Sample.node))
     = backoffCache Sample.node.
Proof.
  destruct (C4_no_address_no_handshake (Sample.healthy Sample.ahead) "Q" Sample.node)
    as (_ & _ & Hrpc & Hbackoff & _).
  - reflexivity.
  - split; [exact Hrpc | exact Hbackoff].
Defined.

(** C4 as stated does not hold: with no known address and the connection
    still open, the flow does issue an RPC, the Goodbye of the cleanup. *)
Lemma C4_goodbye_is_sent_without_address :
  default [] (peerstore Sample.node !! "Q") = []
  /\ new_actions Sample.node
       (snd (handleOutboundConnection (Sample.healthy Sample.ahead) "Q" Sample.node))
     = [ARpc (RpcGoodbye 3) "Q"; AClosePeer "Q"]
  /\ count is_rpc
       (new_actions Sample.node
          (snd (handleOutboundConnection (Sample.healthy Sample.ahead) "Q" Sample.node)))
     = 1.
Proof. repeat split. Qed.

(** C5.  Both flows run the cleanup from the state their body stopped in,
    however it stopped, and the peer is not connected when they are over.
    The cleanup sends a Goodbye with reason 3 and then closes the peer when
    the connection is still open, whatever the Goodbye answers; it does
    neither when the connection is already gone. *)
Theorem C5_cleanup_always_closes :
  forall (r : Remote) (pid : PeerID) (w : World),
    (snd (handleOutboundConnection r pid w)
       = snd (cleanup r pid (snd (outbound_body r pid w)))
     /\ pid ∉ conns (snd (handleOutboundConnection r pid w)))
    /\ (snd (handleInboundConnection r pid w)
          = snd (cleanup r pid (snd (inbound_body r pid (inbound_entry pid w))))
        /\ pid ∉ conns (snd (handleInboundConnection r pid w)))
    /\ (let w' := snd (cleanup r pid w) in
        fst (cleanup r pid w) = Returned tt
        /\ (pid ∉ conns w')
        /\ new_actions w w'
           = if bool_decide (pid ∈ conns w)
             then [ARpc (RpcGoodbye 3) pid; AClosePeer pid]
             else []).
Proof.
  intros r pid w. repeat split.
  - apply handleOutboundConnection_snd.
  - rewrite handleOutboundConnection_snd. apply cleanup_closed.
  - apply handleInboundConnection_snd.
  - rewrite handleInboundConnection_snd. apply cleanup_closed.
  - apply cleanup_returns.
  - apply cleanup_closed.
  - apply new_actions_app, cleanup_trace.
Qed.

(** ** The dispatcher *)

Lemma Connected_unfold r dir pid w :
  Connected r dir pid w
  = match dir with
    | DirOutbound => handleOutboundConnection r pid
    | DirInbound => handleInboundConnection r pid
    | DirUnknown => ret tt
    end (connected_entry dir pid w).
Proof. reflexivity. Qed.

Lemma Connected_log_calm r dir pid : keeps log_calm (Connected r dir pid).
Proof. unfold_steps. repeat keeps_step; log_calm_step. Qed.

(** C2, as the code has it.  Whatever fails inside a handshake flow, the
    flow returns to the dispatcher: the outbound flow always, the inbound
    flow in every case but one, an inbound peer that is still connected
    after the grace period, answers the MetaData request and has no known
    address.  Short of that case the flow leaves log lines (none above the
    error level) and a peer that is no longer connected. *)
Theorem C2_failures_stay_in_the_flow :
  forall (r : Remote) (dir : Direction) (pid : PeerID) (w : World),
    (dir = DirInbound -> inbound_without_address r pid w = false) ->
    let w' := snd (Connected r dir pid w) in
    fst (Connected r dir pid w) = Returned tt
    /\ log_calm w w'
    /\ (dir <> DirUnknown -> pid ∉ conns w').
Proof.
  intros r dir pid w Hcase w'. split; [|split].
  - rewrite Connected_unfold. destruct dir.
    + reflexivity.
    + rewrite handleInboundConnection_unfold, defer_cleanup_fst, inbound_body_outcome.
      change (inbound_without_address r pid (inbound_entry pid (connected_entry DirInbound pid w)))
        with (inbound_without_address r pid w).
      by rewrite Hcase.
    + unfold handleOutboundConnection. rewrite defer_cleanup_fst.
      apply outbound_body_returns.
  - apply (Connected_log_calm r dir pid w).
  - intros Hdir. subst w'. rewrite Connected_unfold. destruct dir.
    + done.
    + rewrite handleInboundConnection_snd. apply cleanup_closed.
    + rewrite handleOutboundConnection_snd. apply cleanup_closed.
Qed.

Lemma C2_failures_stay_in_the_flow_witness :
  fst (Connected Sample.ping_times_out DirInbound "P" Sample.node) = Returned tt
  /\ "P" ∉ conns (snd (Connected Sample.ping_times_out DirInbound "P" Sample.node)).
Proof.
  destruct (C2_failures_stay_in_the_flow Sample.ping_times_out DirInbound "P" Sample.node)
    as (Hret & _ & Hclosed).
  - intros _. reflexivity.
  - split; [exact Hret | apply Hclosed; discriminate].
Defined.

(** C2 as stated does not hold: an inbound peer with no known address
    takes the goroutine, and with it the process, down. *)
Lemma C2_inbound_without_address_goes_down :
  inbound_without_address (Sample.healthy Sample.ahead) "Q" Sample.node = true
  /\ fst (Connected (Sample.healthy Sample.ahead) DirInbound "Q" Sample.node)
     = Panicked "slice bounds out of range".
Proof. split; reflexivity. Qed.

(** ** The consumer *)



Lemma protocol_ack env : protocol (Consumer.ack env) = [Consumer.Ack].
Proof. unfold Consumer.ack. by destruct (Consumer.Ack_err env). Qed.





(** C9.  The record the consumer hands to the Parquet writer takes the
    identifier, address, port, epoch and crawler fields from the event, and
    leaves the timestamp at zero and the metadata payload at nil, whatever
    the event carries. *)
Theorem C9_record_drops_timestamp_and_metadata :
  Consumer.mr_Timestamp Sample.metadata_event = 1700000000%Z
  /\ Consumer.mr_MetaData Sample.metadata_event = Some Sample.md7
  /\ fst (Consumer.handleMessage (Sample.env None)
            (Sample.message "events.metadata_received" [x7b; x7d]))
     = [Consumer.LogInfo 42 "metadata_received";
        Consumer.WriteMetadataReceived
          {| Consumer.pmr_ID := "P";
             Consumer.pmr_Multiaddr := "/ip4/10.0.0.1/tcp/9000";
             Consumer.pmr_Epoch := 3;
             Consumer.pmr_MetaData := None;
             Consumer.pmr_ClientVersion := "client/v1";
             Consumer.pmr_CrawlerID := "crawler-1";
             Consumer.pmr_CrawlerLoc := "eu";
             Consumer.pmr_Timestamp := 0 |};
        Consumer.Ack]
  /\ (forall event,
        Consumer.pmr_Timestamp (Consumer.parquetMetadataReceivedEvent event) = 0%Z
        /\ Consumer.pmr_MetaData (Consumer.parquetMetadataReceivedEvent event) = None)
  /\ (forall event,
        Consumer.ppd_Timestamp (Consumer.parquetPeerDiscoveredEvent event) = 0%Z).
Proof. repeat split. Qed.

(** * Further properties of the notifiee *)

(** ** What a run adds to the trace and keeps in the caches *)

#[local] Instance adds_preorder (P : Action -> Prop) : PreOrder (adds P).
Proof.
  split.
  - intros w. exists []. by rewrite app_nil_r.
  - intros w1 w2 w3 (d1 & E1 & F1) (d2 & E2 & F2). exists (d1 ++ d2). split.
    + by rewrite E2, E1, app_assoc.
    + by apply Forall_app.
Qed.

#[local] Instance caches_grow_preorder : PreOrder caches_grow.
Proof.
  split.
  - by intros w.
  - intros w1 w2 w3 [M1 B1] [M2 B2]. split; by etrans.
Qed.

#[local] Instance others_untouched_preorder (pid : PeerID) :
  PreOrder (others_untouched pid).
Proof.
  split.
  - by intros w q Hq.
  - intros w1 w2 w3 H1 H2 q Hq.
    destruct (H1 q Hq) as (M1 & B1 & C1), (H2 q Hq) as (M2 & B2 & C2).
    repeat split; try congruence; tauto.
Qed.

#[local] Instance same_status_and_backoff_preorder : PreOrder same_status_and_backoff.
Proof.
  split.
  - by intros w.
  - intros w1 w2 w3 [S1 B1] [S2 B2]. split; congruence.
Qed.

Lemma adds_same P w w' : trace w' = trace w -> adds P w w'.
Proof. intros E. exists []. rewrite app_nil_r. by split. Qed.

Lemma adds_one P w a : P a -> adds P w (set_trace (trace w ++ [a]) w).
Proof. intros Ha. exists [a]. split; [reflexivity|]. constructor; [exact Ha | constructor]. Qed.

Ltac adds_step :=
  first [ apply adds_one; simpl; done
        | apply adds_same; repeat case_match; reflexivity ].

Lemma caches_grow_metadata w pid v :
  caches_grow w (set_metadataCache (<[pid := v]> (metadataCache w)) w).
Proof. split; simpl; [|done]. rewrite dom_insert_L. set_solver. Qed.

Lemma caches_grow_backoff w pid v :
  caches_grow w (set_backoffCache (<[pid := v]> (backoffCache w)) w).
Proof. split; simpl; [done|]. rewrite dom_insert_L. set_solver. Qed.

Lemma caches_grow_same w w' :
  metadataCache w' = metadataCache w -> backoffCache w' = backoffCache w ->
  caches_grow w w'.
Proof. intros Em Eb. split; by rewrite ?Em, ?Eb. Qed.

Ltac caches_step :=
  first [ apply caches_grow_metadata
        | apply caches_grow_backoff
        | apply caches_grow_same; repeat case_match; reflexivity ].

Lemma others_untouched_metadata pid w v :
  others_untouched pid w (set_metadataCache (<[pid := v]> (metadataCache w)) w).
Proof. intros q Hq. simpl. by rewrite lookup_insert_ne. Qed.

Lemma others_untouched_backoff pid w v :
  others_untouched pid w (set_backoffCache (<[pid := v]> (backoffCache w)) w).
Proof. intros q Hq. simpl. by rewrite lookup_insert_ne. Qed.

Lemma others_untouched_close pid w :
  others_untouched pid w (set_conns (conns w ∖ {[pid]}) w).
Proof.
  intros q Hq. simpl. repeat split; try tauto.
  - by intros [? _]%elem_of_difference.
  - intros Hin. apply elem_of_difference. split; [done|].
    by intros ->%elem_of_singleton.
Qed.

Lemma others_untouched_same pid w w' :
  metadataCache w' = metadataCache w -> backoffCache w' = backoffCache w ->
  conns w' = conns w -> others_untouched pid w w'.
Proof. intros Em Eb Ec q Hq. by rewrite Em, Eb, Ec. Qed.

Ltac others_step :=
  first [ apply others_untouched_metadata
        | apply others_untouched_backoff
        | apply others_untouched_close
        | apply others_untouched_same; reflexivity
        | case_match; [apply others_untouched_close
                      | apply others_untouched_same; reflexivity] ].


Lemma run_keeps (R : World -> World -> Prop) `{!PreOrder R} ns :
  (forall n, keeps R (notify n)) -> keeps R (run ns).
Proof.
  intros Hn. induction ns as [|n ns IH]; simpl.
  - apply keeps_ret; apply _.
  - apply keeps_bind; [apply _ | apply Hn | intros _; exact IH].
Qed.

(** X1.  Over any run of notifications no entry leaves the Metadata Cache or
    the Backoff Cache: a peer that is in a cache before the run is in it
    after the run, disconnect notifications included. *)
Theorem X1_caches_never_evict :
  forall (ns : list Notification) (w : World) (pid : PeerID),
    let w' := snd (run ns w) in
    (is_Some (metadataCache w !! pid) -> is_Some (metadataCache w' !! pid))
    /\ (is_Some (backoffCache w !! pid) -> is_Some (backoffCache w' !! pid)).
Proof.
  intros ns w pid w'.
  assert (H : caches_grow w w').
  { apply (run_keeps caches_grow ns). intros [r dir pid'|pid'];
      unfold_steps; repeat keeps_step; caches_step. }
  destruct H as [Hm Hb]. split; intros Hin%elem_of_dom; apply elem_of_dom; set_solver.
Qed.

Lemma X1_caches_never_evict_witness :
  is_Some (metadataCache
             (snd (run [NConnected (Sample.healthy Sample.ahead) DirInbound "P";
                        NDisconnected "P";
                        NConnected Sample.ping_times_out DirOutbound "P"]
                     (snd (handleOutboundConnection (Sample.healthy Sample.ahead) "P"
                             Sample.node)))) !! "P").
Proof.
  apply (X1_caches_never_evict
           [NConnected (Sample.healthy Sample.ahead) DirInbound "P";
            NDisconnected "P";
            NConnected Sample.ping_times_out DirOutbound "P"]
           (snd (handleOutboundConnection (Sample.healthy Sample.ahead) "P" Sample.node))
           "P").
  vm_compute. eauto.
Defined.

Lemma paired_app t1 t2 : paired t1 -> paired t2 -> paired (t1 ++ t2).
Proof.
  intros H1 H2. remember (length t1) as n eqn:Hn.
  revert t1 Hn H1. induction n as [n IH] using lt_wf_ind. intros t1 -> H1.
  destruct t1 as [|a t1]; [exact H2|].
  destruct a as [[| | |reason] p|st|p ai md|p md|p ai|p]; simpl in *;
    try (apply (IH (length t1)); [lia | reflexivity | exact H1]); try done.
  destruct t1 as [|[| | | | |q] t1]; try done. simpl.
  destruct H1 as (Hr & Hp & H1). repeat split; try done.
  apply (IH (length t1)); [simpl; lia | reflexivity | exact H1].
Qed.



#[local] Instance adds_paired_preorder : PreOrder adds_paired.
Proof.
  split.
  - intros w. exists []. by rewrite app_nil_r.
  - intros w1 w2 w3 (d1 & E1 & F1) (d2 & E2 & F2). exists (d1 ++ d2). split.
    + by rewrite E2, E1, app_assoc.
    + by apply paired_app.
Qed.






(** X3.  A flow started for one peer is about that peer only: every RPC,
    emission, cache insertion and close it makes names that peer, and the
    cache entries and connections of every other peer are what they
    were. *)
Theorem X3_flow_is_about_its_peer :
  forall (r : Remote) (dir : Direction) (pid : PeerID) (w : World),
    let w' := snd (Connected r dir pid w) in
    (exists d, trace w' = trace w ++ d /\ Forall (concerns pid) d)
    /\ (forall q, q <> pid ->
          metadataCache w' !! q = metadataCache w !! q
          /\ backoffCache w' !! q = backoffCache w !! q
          /\ (q ∈ conns w' <-> q ∈ conns w)).
Proof.
  intros r dir pid w w'. split.
  - assert (H : keeps (adds (concerns pid)) (Connected r dir pid))
      by (unfold_steps; repeat keeps_step; adds_step).
    apply H.
  - assert (H : keeps (others_untouched pid) (Connected r dir pid))
      by (unfold_steps; repeat keeps_step; others_step).
    apply H.
Qed.

Lemma X3_flow_is_about_its_peer_witness :
  metadataCache (snd (Connected (Sample.healthy Sample.ahead) DirOutbound "P" Sample.node))
    !! "Q"
  = metadataCache Sample.node !! "Q"
  /\ backoffCache (snd (Connected (Sample.healthy Sample.ahead) DirOutbound "P" Sample.node))
       !! "Q"
     = backoffCache Sample.node !! "Q"
  /\ ("Q" ∈ conns (snd (Connected (Sample.healthy Sample.ahead) DirOutbound "P" Sample.node))
      <-> "Q" ∈ conns Sample.node).
Proof.
  destruct (X3_flow_is_about_its_peer (Sample.healthy Sample.ahead) DirOutbound "P"
              Sample.node) as [_ H].
  apply (H "Q"). discriminate.
Defined.

(** ** The state a flow ends in *)

Lemma bool_decide_closed (pid : PeerID) (c : gset PeerID) :
  bool_decide (pid ∈ c ∖ {[pid]}) = false.
Proof. apply bool_decide_eq_false_2, not_elem_of_closed. Qed.

Lemma cleanup_actions_connected pid w :
  cleanup_actions pid w = goodbye_and_close (bool_decide (pid ∈ conns w)) pid.
Proof. reflexivity. Qed.

Lemma cleanup_fileLogger r pid w :
  fileLogger (snd (cleanup r pid w)) = fileLogger w.
Proof.
  destruct r as [s p m [ga gh] sl]. unfold_flow. simpl.
  destruct (bool_decide (pid ∈ conns w)); simpl; [|done].
  destruct ga, gh; done.
Qed.

Lemma validatePeer_connected r pid addrInfo w :
  Validate_fails r = false ->
  bool_decide (pid ∈ conns (snd (validatePeer r pid addrInfo w)))
  = bool_decide (pid ∈ conns w) && negb (hung_up_during_Validate r).
Proof.
  destruct r as [[sa sh] [pa ph] [ma mh] g sl].
  unfold Validate_fails, hung_up_during_Validate. simpl.
  destruct sa as [st|e]; [|discriminate].
  destruct pa as [pe|]; [discriminate|].
  destruct ma as [md|me]; [|discriminate]. intros _.
  unfold_flow. simpl.
  destruct sh, ph, mh; simpl;
    destruct (bytes_Equal _ _); simpl; try destruct (_ <? _)%N; simpl;
    rewrite ?bool_decide_closed, ?andb_false_r, ?andb_true_r; reflexivity.
Qed.

Lemma validatePeer_fileLogger r pid addrInfo w :
  fileLogger (snd (validatePeer r pid addrInfo w)) = fileLogger w ++
  match answer (on_Status r), answer (on_Ping r), answer (on_MetaData r) with
  | Ok _, None, Ok md => [handshake_line pid md w]
  | _, _, _ => []
  end.
Proof.
  destruct r as [[sa sh] [pa ph] [ma mh] g sl]. unfold handshake_line.
  unfold_flow. simpl.
  destruct sa as [st|e], sh, pa as [pe|], ph, ma as [md|me], mh; simpl;
    rewrite ?app_nil_r; try reflexivity;
    destruct (bytes_Equal _ _); simpl; rewrite ?app_nil_r; try reflexivity;
    destruct (_ <? _)%N; simpl; rewrite ?app_nil_r; reflexivity.
Qed.

(** The body of the outbound flow, projection by projection. *)
Lemma outbound_body_state r pid w a rest :
  default [] (peerstore w !! pid) = a :: rest ->
  let addrInfo := {| ID := pid; Addrs := [a] |} in
  let w1 := snd (validatePeer r pid addrInfo w) in
  let wb := snd (outbound_body r pid w) in
  reqResp_status wb = reqResp_status w1
  /\ metadataCache wb = metadataCache w1
  /\ fileLogger wb = fileLogger w1
  /\ conns wb = conns w1
  /\ backoffCache wb = (if Validate_fails r
                        then <[pid := (addrInfo, clock w)]> (backoffCache w)
                        else backoffCache w)
  /\ trace wb = trace w1 ++ (if Validate_fails r
                             then [ABackoffCachePut pid addrInfo] else []).
Proof.
  intros Ha addrInfo w1 wb. subst wb.
  rewrite (outbound_body_address r pid w a rest Ha). fold addrInfo. fold w1.
  destruct (validatePeer_frame r pid addrInfo w) as (Hbo & Hclock & _). fold w1 in Hbo, Hclock.
  destruct (Validate_fails r) eqn:Hf.
  - apply Validate_fails_error in Hf as [err ->].
    unfold_flow. simpl. by rewrite Hbo, Hclock.
  - assert (Validate_error r = None) as ->.
    { destruct (Validate_error r) as [err|] eqn:E; [|done].
      assert (Validate_fails r = true) by (apply Validate_fails_error; eauto).
      congruence. }
    simpl. by rewrite app_nil_r.
Qed.

Lemma Validate_fails_false r st md :
  answer (on_Status r) = Ok st -> answer (on_Ping r) = None ->
  answer (on_MetaData r) = Ok md -> Validate_fails r = false.
Proof. unfold Validate_fails. by intros -> -> ->. Qed.

(** X4.  An outbound connection to a peer with a known address whose three
    RPCs all succeed: the flow does Status, the compare-and-update, Ping,
    MetaData, the emission and the cache insertion, then the cleanup (a
    Goodbye and a close unless the remote hung up meanwhile).  Of the
    peer's addresses only the first goes into the event.  The Metadata
    Cache then holds the metadata with the time of the fetch, the Backoff
    Cache is untouched, the file log has one more line, and the peer is
    not connected. *)
Theorem X4_outbound_success :
  forall (r : Remote) (pid : PeerID) (w : World) (a : Multiaddr)
         (rest : list Multiaddr) (st : Status) (md : MetaDataV1),
    default [] (peerstore w !! pid) = a :: rest ->
    answer (on_Status r) = Ok st ->
    answer (on_Ping r) = None ->
    answer (on_MetaData r) = Ok md ->
    let w' := snd (handleOutboundConnection r pid w) in
    fst (handleOutboundConnection r pid w) = Returned tt
    /\ new_actions w w'
       = ARpc RpcStatus pid :: compare_and_update w st
         ++ [ARpc RpcPing pid; ARpc RpcMetaData pid;
             AEmitMetadata pid {| ID := pid; Addrs := [a] |} md;
             AMetadataCachePut pid md]
         ++ goodbye_and_close
              (bool_decide (pid ∈ conns w) && negb (hung_up_during_Validate r)) pid
    /\ metadataCache w' = <[pid := (md, clock w)]> (metadataCache w)
    /\ backoffCache w' = backoffCache w
    /\ fileLogger w' = fileLogger w ++ [handshake_line pid md w]
    /\ pid ∉ conns w'.
Proof.
  intros r pid w a rest st md Ha Hs Hp Hm w'.
  pose proof (Validate_fails_false r st md Hs Hp Hm) as Hf.
  unfold handleOutboundConnection at 1. rewrite defer_cleanup_fst.
  split; [apply outbound_body_returns|].
  subst w'. rewrite handleOutboundConnection_snd.
  destruct (outbound_body_state r pid w a rest Ha) as (_ & Hmd & Hfl & Hc & Hbo & Htr).
  rewrite Hf in Hbo, Htr. rewrite app_nil_r in Htr.
  set (ai := {| ID := pid; Addrs := [a] |}) in *.
  set (wb := snd (outbound_body r pid w)) in *.
  destruct (cleanup_frame r pid wb) as (_ & -> & ->).
  rewrite cleanup_fileLogger, Hmd, Hfl, Hbo.
  rewrite validatePeer_metadataCache, validatePeer_fileLogger, Hs, Hp, Hm.
  repeat split; try reflexivity; [|apply cleanup_closed].
  apply new_actions_app.
  rewrite cleanup_trace, cleanup_actions_connected, Hc, Htr.
  rewrite (validatePeer_connected r pid ai w Hf).
  rewrite validatePeer_trace, Hs, Hp, Hm.
  rewrite <- !app_assoc. reflexivity.
Qed.

Lemma X4_outbound_success_witness :
  new_actions Sample.node
    (snd (handleOutboundConnection (Sample.healthy Sample.ahead) "P" Sample.node))
  = [ARpc RpcStatus "P"; ASetStatus Sample.ahead; ARpc RpcPing "P";
     ARpc RpcMetaData "P"; AEmitMetadata "P" Sample.addrP Sample.md7;
     AMetadataCachePut "P" Sample.md7; ARpc (RpcGoodbye 3) "P"; AClosePeer "P"].
Proof.
  destruct (X4_outbound_success (Sample.healthy Sample.ahead) "P" Sample.node
              "/ip4/10.0.0.1/tcp/9000" ["/ip4/10.0.0.2/tcp/9000"]
              Sample.ahead Sample.md7) as (_ & Htrace & _);
    [reflexivity | reflexivity | reflexivity | reflexivity |].
  exact Htrace.
Defined.

(** X5.  The status record is updated before the Ping: when the Status
    answer makes the rule fire and a later RPC of the same run fails, the
    local record keeps the peer's status, and the peer goes to the Backoff
    Cache all the same. *)
Theorem X5_status_update_is_not_rolled_back :
  forall (r : Remote) (pid : PeerID) (w : World) (a : Multiaddr)
         (rest : list Multiaddr) (st : Status),
    default [] (peerstore w !! pid) = a :: rest ->
    answer (on_Status r) = Ok st ->
    rule_fires w st = true ->
    Validate_fails r = true ->
    let w' := snd (handleOutboundConnection r pid w) in
    reqResp_status w' = st
    /\ backoffCache w' !! pid = Some ({| ID := pid; Addrs := [a] |}, clock w).
Proof.
  intros r pid w a rest st Ha Hs Hrule Hf w'. subst w'.
  rewrite handleOutboundConnection_snd.
  destruct (outbound_body_state r pid w a rest Ha) as (Hst & _ & _ & _ & Hbo & _).
  rewrite Hf in Hbo.
  destruct (cleanup_frame r pid (snd (outbound_body r pid w))) as (-> & _ & ->).
  rewrite Hst, Hbo, validatePeer_status, Hs, Hrule.
  split; [reflexivity | apply lookup_insert_eq].
Qed.

Lemma X5_status_update_is_not_rolled_back_witness :
  reqResp_status (snd (handleOutboundConnection Sample.ping_times_out "P" Sample.node))
  = Sample.ahead
  /\ backoffCache (snd (handleOutboundConnection Sample.ping_times_out "P" Sample.node))
       !! "P"
     = Some (Sample.addrP, clock Sample.node).
Proof.
  apply (X5_status_update_is_not_rolled_back Sample.ping_times_out "P" Sample.node
           "/ip4/10.0.0.1/tcp/9000" ["/ip4/10.0.0.2/tcp/9000"] Sample.ahead);
    reflexivity.
Defined.

(** X6.  The Metadata Cache is last-write-wins: after two successful
    Validate runs for the same peer the cache holds the metadata of the
    second run, whatever the two sequence numbers are, and each run has
    made its own emission and insertion. *)
Theorem X6_metadata_last_write_wins :
  forall (r1 r2 : Remote) (pid : PeerID) (addrInfo : AddrInfo) (w : World)
         (md2 : MetaDataV1),
    Validate_fails r1 = false ->
    Validate_fails r2 = false ->
    answer (on_MetaData r2) = Ok md2 ->
    let w1 := snd (validatePeer r1 pid addrInfo w) in
    let w2 := snd (validatePeer r2 pid addrInfo w1) in
    metadataCache w2 !! pid = Some (md2, clock w)
    /\ count is_emission (new_actions w w2) = 2
    /\ count is_metadata_insertion (new_actions w w2) = 2.
Proof.
  intros r1 r2 pid addrInfo w md2 Hf1 Hf2 Hm2 w1 w2.
  destruct (validatePeer_frame r1 pid addrInfo w) as (_ & Hclock & _). fold w1 in Hclock.
  pose proof (validatePeer_trace r1 pid addrInfo w) as Ht1. fold w1 in Ht1.
  pose proof (validatePeer_trace r2 pid addrInfo w1) as Ht2. fold w2 in Ht2.
  pose proof (validatePeer_metadataCache r2 pid addrInfo w1) as Hc2. fold w2 in Hc2.
  unfold Validate_fails in Hf1, Hf2. rewrite Hm2 in *.
  destruct (answer (on_Status r1)) as [s1|]; [|discriminate].
  destruct (answer (on_Ping r1)) as [|]; [discriminate|].
  destruct (answer (on_MetaData r1)) as [m1|]; [|discriminate].
  destruct (answer (on_Status r2)) as [s2|]; [|discriminate].
  destruct (answer (on_Ping r2)) as [|]; [discriminate|].
  rewrite Hc2, Hclock. split; [apply lookup_insert_eq|].
  rewrite Ht1, <- app_assoc in Ht2. apply new_actions_app in Ht2. rewrite Ht2.
  rewrite !count_app, !count_compare_and_update by done. done.
Qed.

Lemma X6_metadata_last_write_wins_witness :
  metadataCache
    (snd (validatePeer Sample2.stale "P" Sample.addrP
            (snd (validatePeer (Sample.healthy Sample.ahead) "P" Sample.addrP
                    Sample.node)))) !! "P"
  = Some (Sample2.md3, clock Sample.node).
Proof.
  apply (X6_metadata_last_write_wins (Sample.healthy Sample.ahead)
           Sample2.stale "P" Sample.addrP Sample.node Sample2.md3);
    reflexivity.
Defined.

(** ** The inbound flow *)

Lemma cleanup_not_connected r pid w :
  pid ∉ conns w -> cleanup r pid w = (Returned tt, w).
Proof.
  intros Hc. unfold_flow. by rewrite (bool_decide_eq_false_2 _ Hc).
Qed.

(** X7.  Whatever the remote does, the inbound flow issues no Status and no
    Ping, and it changes neither the local status record nor the Backoff
    Cache: all it can do is the MetaData request, the emission, the
    Metadata Cache insertion, and the Goodbye and close of the cleanup. *)
Theorem X7_inbound_does_not_validate :
  forall (r : Remote) (pid : PeerID) (w : World),
    let w' := snd (handleInboundConnection r pid w) in
    (exists d, trace w' = trace w ++ d /\ Forall inbound_action d)
    /\ reqResp_status w' = reqResp_status w
    /\ backoffCache w' = backoffCache w.
Proof.
  intros r pid w w'. split.
  - assert (H : keeps (adds inbound_action) (handleInboundConnection r pid))
      by (unfold_steps; repeat keeps_step; adds_step).
    apply H.
  - assert (H : keeps same_status_and_backoff (handleInboundConnection r pid))
      by (unfold_steps; repeat keeps_step; by repeat case_match).
    apply H.
Qed.

(** X8.  An inbound peer that is not connected any more when the grace
    period is over: the flow logs a warning and returns, with no RPC at
    all (no MetaData request, no Goodbye), no emission and no cache
    insertion. *)
Theorem X8_inbound_closed_during_grace :
  forall (r : Remote) (pid : PeerID) (w : World),
    pid ∉ conns w \/ on_Sleep r = true ->
    let w' := snd (handleInboundConnection r pid w) in
    fst (handleInboundConnection r pid w) = Returned tt
    /\ trace w' = trace w
    /\ metadataCache w' = metadataCache w
    /\ fileLogger w' = fileLogger w
    /\ log w' = log w ++ [inbound_entry_line pid; closed_early_line pid].
Proof.
  intros r pid w Hgone w'.
  assert (Hb : inbound_body r pid (inbound_entry pid w)
               = (Returned tt,
                  set_log (log w ++ [inbound_entry_line pid; closed_early_line pid])
                    (if on_Sleep r then set_conns (conns w ∖ {[pid]}) w else w))).
  { destruct r as [s p m g sl]. simpl in *. unfold_flow. simpl.
    destruct sl; simpl.
    - rewrite bool_decide_closed. simpl. by rewrite <- app_assoc.
    - destruct Hgone as [Hc|?]; [|discriminate].
      rewrite (bool_decide_eq_false_2 _ Hc). simpl. by rewrite <- app_assoc. }
  assert (Hconn : pid ∉ conns (snd (inbound_body r pid (inbound_entry pid w)))).
  { rewrite Hb. simpl. destruct (on_Sleep r) eqn:Hs; simpl.
    - apply not_elem_of_closed.
    - by destruct Hgone. }
  split.
  - rewrite handleInboundConnection_unfold, defer_cleanup_fst. by rewrite Hb.
  - subst w'. rewrite handleInboundConnection_snd.
    rewrite (cleanup_not_connected r pid _ Hconn). rewrite Hb. simpl.
    by destruct (on_Sleep r).
Qed.

Lemma X8_inbound_closed_during_grace_witness :
  trace (snd (handleInboundConnection Sample2.leaves_early "P" Sample.node))
  = trace Sample.node
  /\ metadataCache (snd (handleInboundConnection Sample2.leaves_early "P" Sample.node))
     = metadataCache Sample.node.
Proof.
  destruct (X8_inbound_closed_during_grace Sample2.leaves_early "P" Sample.node)
    as (_ & Htrace & Hcache & _).
  - right. reflexivity.
  - split; [exact Htrace | exact Hcache].
Defined.

(** The body of the inbound flow when the peer is still connected after
    the grace period and the MetaData request does not lead to a
    handshake. *)
Lemma inbound_body_stops r pid w :
  pid ∈ conns w -> on_Sleep r = false ->
  (exists err, answer (on_MetaData r) = Err err)
  \/ inbound_without_address r pid w = true ->
  let wb := snd (inbound_body r pid w) in
  trace wb = trace w ++ [ARpc RpcMetaData pid]
  /\ metadataCache wb = metadataCache w
  /\ fileLogger wb = fileLogger w
  /\ bool_decide (pid ∈ conns wb) = negb (hangs_up (on_MetaData r))
  /\ log wb = log w ++ match answer (on_MetaData r) with
                       | Err err => [metadata_failed_line pid err]
                       | Ok _ => []
                       end.
Proof.
  destruct r as [s p [ma mh] g sl]. unfold inbound_without_address. simpl.
  intros Hc -> Hstop. rewrite (bool_decide_eq_true_2 _ Hc) in Hstop. simpl in Hstop.
  unfold_flow. simpl. rewrite (bool_decide_eq_true_2 _ Hc). simpl.
  destruct ma as [md|err].
  - destruct Hstop as [[? ?]|Hlen]; [discriminate|].
    destruct (default [] (peerstore w !! pid)) as [|a rest] eqn:Ha; [|discriminate].
    destruct mh; simpl; rewrite Ha; simpl;
      rewrite ?bool_decide_closed, ?(bool_decide_eq_true_2 _ Hc), ?app_nil_r; done.
  - destruct mh; simpl;
      rewrite ?bool_decide_closed, ?(bool_decide_eq_true_2 _ Hc); done.
Qed.

(** X9.  An inbound peer that is still connected after the grace period and
    whose MetaData request fails: the flow logs a warning with the error
    and returns after the cleanup.  The one handshake RPC it made is the
    MetaData request; nothing is emitted, nothing goes into the Metadata
    Cache or the file log, and the peer is not connected afterwards. *)
Theorem X9_inbound_metadata_failure :
  forall (r : Remote) (pid : PeerID) (w : World) (err : error),
    pid ∈ conns w -> on_Sleep r = false ->
    answer (on_MetaData r) = Err err ->
    let w' := snd (handleInboundConnection r pid w) in
    fst (handleInboundConnection r pid w) = Returned tt
    /\ new_actions w w'
       = ARpc RpcMetaData pid
         :: goodbye_and_close (negb (hangs_up (on_MetaData r))) pid
    /\ metadataCache w' = metadataCache w
    /\ fileLogger w' = fileLogger w
    /\ (exists more, log w' = log w ++ [inbound_entry_line pid;
                                        metadata_failed_line pid err] ++ more)
    /\ pid ∉ conns w'.
Proof.
  intros r pid w err Hc Hs Hm w'.
  assert (Hcase : inbound_without_address r pid (inbound_entry pid w) = false).
  { unfold inbound_without_address. rewrite Hm. by rewrite andb_false_r. }
  split.
  { rewrite handleInboundConnection_unfold, defer_cleanup_fst, inbound_body_outcome.
    by rewrite Hcase. }
  subst w'. rewrite handleInboundConnection_snd.
  destruct (inbound_body_stops r pid (inbound_entry pid w) Hc Hs) as (Ht & Hmd & Hfl & Hcn & Hlog);
    [left; eauto|].
  set (wb := snd (inbound_body r pid (inbound_entry pid w))) in *.
  destruct (cleanup_frame r pid wb) as (_ & -> & _).
  rewrite cleanup_fileLogger, Hmd, Hfl. repeat split; try reflexivity.
  - apply new_actions_app.
    rewrite cleanup_trace, cleanup_actions_connected, Hcn, Ht.
    by rewrite <- app_assoc.
  - destruct (cleanup_log_calm r pid wb) as (more & -> & _).
    exists more. rewrite Hlog, Hm. simpl. by rewrite <- !app_assoc.
  - apply cleanup_closed.
Qed.

Lemma X9_inbound_metadata_failure_witness :
  new_actions Sample.node
    (snd (handleInboundConnection Sample2.metadata_times_out "P" Sample.node))
  = [ARpc RpcMetaData "P"; ARpc (RpcGoodbye 3) "P"; AClosePeer "P"].
Proof.
  destruct (X9_inbound_metadata_failure Sample2.metadata_times_out "P" Sample.node
              "context deadline exceeded") as (_ & Htrace & _).
  - vm_compute. set_solver.
  - reflexivity.
  - reflexivity.
  - exact Htrace.
Defined.



(** ** What a handshake leaves behind *)




(** ** Disconnect *)





(** * Further properties of the consumer *)

Lemma tally_app p t1 t2 : tally p (t1 ++ t2) = tally p t1 + tally p t2.
Proof. unfold tally. by rewrite List.filter_app, length_app. Qed.

Lemma tally_ack env :
  tally is_Term (Consumer.ack env) = 0
  /\ tally is_Ack (Consumer.ack env) = 1
  /\ tally is_Write (Consumer.ack env) = 0.
Proof. unfold Consumer.ack. by destruct (Consumer.Ack_err env). Qed.

Lemma tally_storePeerDiscoveredEvent env event :
  tally is_Term (Consumer.storePeerDiscoveredEvent env event) = 0
  /\ tally is_Ack (Consumer.storePeerDiscoveredEvent env event) = 0
  /\ tally is_Write (Consumer.storePeerDiscoveredEvent env event) = 1.
Proof.
  unfold Consumer.storePeerDiscoveredEvent. by destruct (Consumer.Write_err env).
Qed.

Lemma tally_storeMetadataReceivedEvent env event :
  tally is_Term (Consumer.storeMetadataReceivedEvent env event) = 0
  /\ tally is_Ack (Consumer.storeMetadataReceivedEvent env event) = 0
  /\ tally is_Write (Consumer.storeMetadataReceivedEvent env event) = 1.
Proof.
  unfold Consumer.storeMetadataReceivedEvent. by destruct (Consumer.Write_err env).
Qed.

(** X13.  A message on a subject that is neither of the two event subjects
    is reported on the console and acknowledged: its payload is not
    decoded, nothing is written, and the message is not terminated. *)
Theorem X13_unknown_subject_is_acknowledged :
  forall (env : Consumer.Env) (msg : Consumer.Msg),
    Consumer.Subject msg <> "events.peer_discovered" ->
    Consumer.Subject msg <> "events.metadata_received" ->
    snd (Consumer.handleMessage env msg) = Returned tt
    /\ protocol (fst (Consumer.handleMessage env msg)) = [Consumer.Ack]
    /\ hd_error (fst (Consumer.handleMessage env msg))
       = Some (Consumer.Printf ("Unknown event type: " ++ Consumer.Subject msg)%string).
Proof.
  intros env msg H1 H2. unfold Consumer.handleMessage.
  apply String.eqb_neq in H1, H2. rewrite H1, H2. cbn [fst snd].
  repeat split. change (protocol (Consumer.ack env) = [Consumer.Ack]).
  apply protocol_ack.
Qed.

Lemma X13_unknown_subject_is_acknowledged_witness :
  protocol (fst (Consumer.handleMessage (Sample.env None)
                   (Sample.message "events.other" [])))
  = [Consumer.Ack].
Proof.
  destruct (X13_unknown_subject_is_acknowledged (Sample.env None)
              (Sample.message "events.other" [])) as (_ & Hack & _).
  - discriminate.
  - discriminate.
  - exact Hack.
Defined.

(** X14.  A message is disposed of once: when the handler returns it has
    either terminated the message or acknowledged it, never both, it has
    written at most one record, and none for a message it terminated.
    When the handler does not return it has done nothing to the message or
    to the store. *)
Theorem X14_one_disposition_per_message :
  forall (env : Consumer.Env) (msg : Consumer.Msg),
    let t := fst (Consumer.handleMessage env msg) in
    match snd (Consumer.handleMessage env msg) with
    | Returned _ =>
        tally is_Term t + tally is_Ack t = 1
        /\ tally is_Write t <= 1
        /\ (tally is_Term t = 1 -> tally is_Write t = 0)
    | _ => t = []
    end.
Proof.
  intros env msg t. subst t. unfold Consumer.handleMessage.
  destruct (tally_ack env) as (Ha1 & Ha2 & Ha3).
  destruct (String.eqb _ "events.peer_discovered").
  - destruct (Consumer.Unmarshal_PeerDiscovered env (Consumer.Data msg)) as [event|err];
      [|cbn; lia].
    destruct (Consumer.Metadata msg) as [meta|]; [|reflexivity]. cbn [fst snd].
    destruct (tally_storePeerDiscoveredEvent env event) as (Hs1 & Hs2 & Hs3).
    change (tally ?p (Consumer.LogInfo ?s ?m :: ?l)) with (tally p l).
    rewrite !tally_app. lia.
  - destruct (String.eqb _ "events.metadata_received").
    + destruct (Consumer.Unmarshal_MetadataReceived env (Consumer.Data msg)) as [event|err];
        [|cbn; lia].
      destruct (Consumer.Metadata msg) as [meta|]; [|reflexivity]. cbn [fst snd].
      destruct (tally_storeMetadataReceivedEvent env event) as (Hs1 & Hs2 & Hs3).
      change (tally ?p (Consumer.LogInfo ?s ?m :: ?l)) with (tally p l).
      rewrite !tally_app. lia.
    + cbn [fst snd].
      change (tally ?p (Consumer.Printf ?s :: ?l)) with (tally p l). lia.
Qed.

Lemma X14_one_disposition_per_message_witness :
  tally is_Write
    (fst (Consumer.handleMessage (Sample.env None)
            (Sample.message "events.peer_discovered" []))) = 0.
Proof.
  pose proof (X14_one_disposition_per_message (Sample.env None)
                (Sample.message "events.peer_discovered" [])) as H.
  cbn in H. destruct H as (_ & _ & H). apply H. reflexivity.
Defined.

(** X15.  The handler ends in a panic exactly for a message without
    JetStream metadata, on one of the two event subjects, whose payload
    decodes: the sequence is read through the nil pointer before the
    record is written.  A payload that does not decode is terminated also
    then. *)
Theorem X15_panics_on_missing_metadata :
  forall (env : Consumer.Env) (msg : Consumer.Msg),
    let decodes :=
      if String.eqb (Consumer.Subject msg) "events.peer_discovered" then
        match Consumer.Unmarshal_PeerDiscovered env (Consumer.Data msg) with
        | Ok _ => true | Err _ => false
        end
      else if String.eqb (Consumer.Subject msg) "events.metadata_received" then
        match Consumer.Unmarshal_MetadataReceived env (Consumer.Data msg) with
        | Ok _ => true | Err _ => false
        end
      else false in
    snd (Consumer.handleMessage env msg)
    = match Consumer.Metadata msg with
      | None => if decodes then Panicked "nil pointer dereference" else Returned tt
      | Some _ => Returned tt
      end.
Proof.
  intros env msg decodes. subst decodes. unfold Consumer.handleMessage.
  destruct (String.eqb _ "events.peer_discovered").
  - destruct (Consumer.Unmarshal_PeerDiscovered env _), (Consumer.Metadata msg); reflexivity.
  - destruct (String.eqb _ "events.metadata_received").
    + destruct (Consumer.Unmarshal_MetadataReceived env _), (Consumer.Metadata msg);
        reflexivity.
    + by destruct (Consumer.Metadata msg).
Qed.

(** X16.  Every record the handler writes comes from the payload of the
    message, decoded as the event type its subject names: a peer-discovered
    record only on [events.peer_discovered], a metadata-received record
    only on [events.metadata_received]. *)
Theorem X16_records_follow_the_subject :
  forall (env : Consumer.Env) (msg : Consumer.Msg),
    let t := fst (Consumer.handleMessage env msg) in
    (forall rec, In (Consumer.WritePeerDiscovered rec) t ->
       Consumer.Subject msg = "events.peer_discovered"
       /\ exists event,
            Consumer.Unmarshal_PeerDiscovered env (Consumer.Data msg) = Ok event
            /\ rec = Consumer.parquetPeerDiscoveredEvent event)
    /\ (forall rec, In (Consumer.WriteMetadataReceived rec) t ->
          Consumer.Subject msg = "events.metadata_received"
          /\ exists event,
               Consumer.Unmarshal_MetadataReceived env (Consumer.Data msg) = Ok event
               /\ rec = Consumer.parquetMetadataReceivedEvent event).
Proof.
  intros env msg t. subst t. unfold Consumer.handleMessage.
  unfold Consumer.storePeerDiscoveredEvent, Consumer.storeMetadataReceivedEvent,
    Consumer.ack.
  destruct (String.eqb_spec (Consumer.Subject msg) "events.peer_discovered") as [E1|E1].
  - destruct (Consumer.Unmarshal_PeerDiscovered env (Consumer.Data msg)) as [event|err];
      destruct (Consumer.Metadata msg), (Consumer.Write_err env), (Consumer.Ack_err env);
      split; intros rec Hin; simpl in Hin;
      repeat (destruct Hin as [Hin|Hin]; try discriminate Hin); try done;
      injection Hin as <-; eauto.
  - destruct (String.eqb_spec (Consumer.Subject msg) "events.metadata_received") as [E2|E2].
    + destruct (Consumer.Unmarshal_MetadataReceived env (Consumer.Data msg)) as [event|err];
        destruct (Consumer.Metadata msg), (Consumer.Write_err env), (Consumer.Ack_err env);
        split; intros rec Hin; simpl in Hin;
        repeat (destruct Hin as [Hin|Hin]; try discriminate Hin); try done;
        injection Hin as <-; eauto.
    + destruct (Consumer.Ack_err env); split; intros rec Hin; simpl in Hin;
        repeat (destruct Hin as [Hin|Hin]; try discriminate Hin); done.
Qed.

Lemma X16_records_follow_the_subject_witness :
  Consumer.Subject (Sample.message "events.metadata_received" [x7b; x7d])
  = "events.metadata_received"
  /\ exists event,
       Consumer.Unmarshal_MetadataReceived (Sample.env None)
         (Consumer.Data (Sample.message "events.metadata_received" [x7b; x7d]))
       = Ok event
       /\ Consumer.parquetMetadataReceivedEvent Sample.metadata_event
          = Consumer.parquetMetadataReceivedEvent event.
Proof.
  destruct (X16_records_follow_the_subject (Sample.env None)
              (Sample.message "events.metadata_received" [x7b; x7d])) as [_ H].
  apply (H (Consumer.parquetMetadataReceivedEvent Sample.metadata_event)).
  simpl. auto.
Defined.

(** * Start-up and shutdown of the consumer *)

Ltac startup_cases env :=
  destruct env as [url uid e1 e2 e3 e4 e5 e6 e7 e8];
  destruct e1, e2, e3, e4, e5, e6, e7, e8.

(** X17.  The program's exit status: a failure to connect to NATS, to make
    the JetStream context or to create the consumer ends it with status 1;
    a failure to create a Parquet file or a Parquet writer is printed and
    ends it with status 0, as a clean shutdown does. *)
Theorem X17_exit_status :
  forall env : Startup.Env,
    Startup.exit_status (fst (Startup.main env []))
    = match Startup.Connect_err env, Startup.JetStream_err env with
      | Some _, _ | None, Some _ => 1%Z
      | None, None =>
          if Startup.ready env then
            match Startup.CreateConsumer_err env, Startup.Consume_err env with
            | None, None => 0%Z
            | _, _ => 1%Z
            end
          else 0%Z
      end.
Proof. intros env. startup_cases env; reflexivity. Qed.

(** X18.  When [main] returns, after the signal or after a failure it only
    prints, it has given back every resource it got hold of, in the
    reverse order: the consumer is stopped, then the metadata file is
    closed, then the peer file, then the NATS connection.  When it exits
    with a fatal log line it gives back nothing: the deferred calls do not
    run. *)
Theorem X18_resources_released_in_reverse_order :
  forall env : Startup.Env,
    List.filter Startup.is_release (snd (Startup.main env []))
    = match fst (Startup.main env []) with
      | Returned _ => rev (Startup.acquired env)
      | _ => []
      end.
Proof. intros env. startup_cases env; reflexivity. Qed.

(** X19.  The consumer is created only once the connection, the JetStream
    context, both files and both writers are there, on the stream [EVENTS],
    with the same fresh name as its name and its durable name and with
    explicit acknowledgement; messages are consumed only once the consumer
    has been created. *)
Theorem X19_consumer_comes_last :
  forall (env : Startup.Env),
    let t := snd (Startup.main env []) in
    (forall stream cfg,
        In (Startup.CreateOrUpdateConsumer stream cfg) t ->
        Startup.ready env = true
        /\ stream = "EVENTS"
        /\ Startup.Name cfg = ("consumer-" ++ Startup.uniqueID env)%string
        /\ Startup.Durable cfg = Startup.Name cfg
        /\ Startup.AckExplicitPolicy cfg = true)
    /\ (In Startup.Consume t <->
        Startup.ready env = true /\ Startup.CreateConsumer_err env = None).
Proof.
  intros env t. subst t. split.
  - intros stream cfg.
    startup_cases env; cbn; intros Hin;
      repeat (destruct Hin as [Hin|Hin]; try discriminate Hin); try done;
      injection Hin as <- <-; done.
  - startup_cases env; cbn; split;
      try (intros Hin;
           repeat (destruct Hin as [Hin|Hin]; try discriminate Hin); done);
      try (intros [? ?]; discriminate);
      intros _; tauto.
Qed.

Lemma X19_consumer_comes_last_witness :
  Startup.ready (Sample3.env None None) = true
  /\ Startup.CreateConsumer_err (Sample3.env None None) = None.
Proof.
  destruct (X19_consumer_comes_last (Sample3.env None None)) as [_ H].
  apply H. cbn. tauto.
Defined.
